(** * Asynchrony wrappers of the FSAL upcall system (FSAL_UP/fsal_up_async.c)

    A shallow embedding of the seven [up_async_*] entry points, their worker
    entry points [queue_*], and the direct delegation-recall path
    [async_delegrecall].  The C code allocates one block per call, fills it
    in, queues it into a thread fridge and lets a fridge thread run the
    operation, the callback and the release.  The embedding threads a world
    (a typed heap and a trace of observable events) through a small
    state-and-fault monad; a computation that dereferences an invalid pointer
    has no result. *)

From Stdlib Require Import ZArith Lia Strings.Byte.
From stdpp Require Import base decidable option list gmap.

(** ** Pointers and plain data *)

Definition loc := positive.
Bind Scope positive_scope with loc.

(** A data pointer is null, the address of a heap block, or the address of
    the flexible array member ([key[]] / [data[]]) that ends the argument
    block allocated at [l]. *)
Inductive ptr :=
| NULL
| Ptr (l : loc)
| KeyOf (l : loc).

(** A function pointer held in a [cb] field: the code address, or [None] for
    a null pointer. *)
Definition funptr := option positive.

(** [struct gsh_buffdesc]: address and length of an opaque byte string. *)
Record gsh_buffdesc := Buffdesc { addr : ptr; len : nat }.

Definition fsal_errors_t := Z.
Definition state_status_t := Z.
Bind Scope Z_scope with fsal_errors_t.
Bind Scope Z_scope with state_status_t.

(** Modelled from the spec: [fsal_status_t] and its constructor
    [fsalstat(major, minor)] are declared in the FSAL headers; the status
    an entry point returns is built from a major code and the fridge's code
    as minor. *)
Record fsal_status_t := { major : fsal_errors_t; minor : Z }.

Definition fsalstat (maj : fsal_errors_t) (min : Z) : fsal_status_t :=
  {| major := maj; minor := min |}.

(** The two status domains handed to callbacks. *)
Inductive status :=
| Fsal (s : fsal_status_t)
| State (s : state_status_t).

(** Modelled from the spec: the attribute set, the lock parameters, the
    segment descriptor and the device id are fixed-size structures declared
    in headers that are not part of this file.  The code only assigns them as
    a whole ([args->attr = *attr]), so each is represented by the sequence of
    its member values. *)
Record attrlist := Attrlist { attr_members : list Z }.
Record fsal_lock_param_t := LockParam { lock_members : list Z }.
Record pnfs_segment := Segment { segment_members : list Z }.
Record pnfs_deviceid := Deviceid { devid_members : list Z }.

(** Modelled from the spec: [enum layoutrecall_howspec] is declared in
    fsal_up.h.  The code names one enumerator, the "not specified" sentinel;
    the remaining enumerators are kept as numbered alternatives. *)
Inductive layoutrecall_howspec :=
| layoutrecall_not_specced
| layoutrecall_howspec_other (n : nat).

(** Modelled from the spec: [struct layoutrecall_spec], a tag [how] and a
    union [u].  The union is [None] while it holds whatever [gsh_malloc]
    returned, that is, before anything has been written to it. *)
Record layoutrecall_spec := Spec { how : layoutrecall_howspec; u : option Z }.

Global Instance ptr_eq_dec : EqDecision ptr.
Proof. solve_decision. Defined.

Global Instance howspec_eq_dec : EqDecision layoutrecall_howspec.
Proof. solve_decision. Defined.

(** ** The capability table *)

(** [struct fsal_up_vector], reached as [export->up_ops].  An entry point is
    an opaque callee: it is given what its arguments designate at the time of
    the call (the bytes behind a buffer descriptor, the value behind a
    pointer to a by-value field, a bare pointer for [void *]) and answers
    with a status. *)
Record fsal_up_vector := {
  invalidate : ptr -> list byte -> Z -> fsal_status_t;
  update : ptr -> list byte -> attrlist -> Z -> fsal_status_t;
  lock_grant : ptr -> list byte -> ptr -> fsal_lock_param_t -> state_status_t;
  lock_avail : ptr -> list byte -> ptr -> fsal_lock_param_t -> state_status_t;
  layoutrecall : ptr -> list byte -> Z -> bool -> pnfs_segment -> ptr ->
                 option layoutrecall_spec -> state_status_t;
  notify_device : Z -> Z -> pnfs_deviceid -> bool -> state_status_t;
  delegrecall : ptr -> list byte -> state_status_t
}.

(** [struct fsal_export], of which this file reads [up_ops] only. *)
Record fsal_export := { up_ops : ptr }.

(** ** Argument blocks, one per operation, as declared in the file *)

Record invalidate_args := {
  inv_export : ptr;
  inv_obj : gsh_buffdesc;
  inv_flags : Z;
  inv_cb : funptr;
  inv_cb_arg : ptr;
  inv_key : list byte
}.

Record update_args := {
  upd_export : ptr;
  upd_obj : gsh_buffdesc;
  upd_attr : attrlist;
  upd_flags : Z;
  upd_cb : funptr;
  upd_cb_arg : ptr;
  upd_key : list byte
}.

Record lock_grant_args := {
  lg_export : ptr;
  lg_file : gsh_buffdesc;
  lg_owner : ptr;
  lg_lock_param : fsal_lock_param_t;
  lg_cb : funptr;
  lg_cb_arg : ptr;
  lg_key : list byte
}.

Record lock_avail_args := {
  la_export : ptr;
  la_file : gsh_buffdesc;
  la_owner : ptr;
  la_lock_param : fsal_lock_param_t;
  la_cb : funptr;
  la_cb_arg : ptr;
  la_key : list byte
}.

Record layoutrecall_args := {
  lr_export : ptr;
  lr_handle : gsh_buffdesc;
  lr_layout_type : Z;
  lr_changed : bool;
  lr_segment : pnfs_segment;
  lr_cookie : ptr;
  lr_spec : layoutrecall_spec;
  lr_cb : funptr;
  lr_cb_arg : ptr;
  lr_data : list byte
}.

Record notify_device_args := {
  nd_export : ptr;
  nd_notify_type : Z;
  nd_layout_type : Z;
  nd_devid : pnfs_deviceid;
  nd_immediate : bool;
  nd_cb : funptr;
  nd_cb_arg : ptr
}.

Record delegrecall_args := {
  dr_export : ptr;
  dr_handle : gsh_buffdesc;
  dr_cb : funptr;
  dr_cb_arg : ptr;
  dr_key : list byte
}.

(** ** The thread fridge *)

(** The static worker entry points of the file, as the code addresses that
    [fridgethr_submit] receives. *)
Inductive worker_fn :=
| fn_queue_invalidate
| fn_queue_update
| fn_queue_lock_grant
| fn_queue_lock_avail
| fn_queue_layoutrecall
| fn_queue_notify_device
| fn_queue_delegrecall
| fn_up_queue_delegrecall.

Global Instance worker_fn_eq_dec : EqDecision worker_fn.
Proof. solve_decision. Defined.

Definition job := (worker_fn * ptr)%type.

(** Modelled from the spec: [struct fridgethr], the worker pool, lives in
    support code outside this file.  The spec gives its contract: a
    submission is either accepted, and then the entry point is run once,
    later, on a pool thread with the submitted argument, or it is rejected
    synchronously with a nonzero code (shutting down, saturated, bad
    configuration).  The pool is a list of accepted jobs not yet run and an
    admission rule that answers, from the number of jobs pending, 0 or the
    rejection code. *)
Record fridgethr := {
  fr_answer : nat -> Z;
  fr_queue : list job
}.

(** ** The heap *)

Inductive obj :=
| OUninit (extra : nat)
| OBytes (bs : list byte)
| OBuffdesc (d : gsh_buffdesc)
| OAttrlist (a : attrlist)
| OLockParam (p : fsal_lock_param_t)
| OSegment (s : pnfs_segment)
| ODeviceid (d : pnfs_deviceid)
| OSpec (s : layoutrecall_spec)
| OExport (e : fsal_export)
| OUpVector (v : fsal_up_vector)
| OFridge (f : fridgethr)
| OInvalidateArgs (a : invalidate_args)
| OUpdateArgs (a : update_args)
| OLockGrantArgs (a : lock_grant_args)
| OLockAvailArgs (a : lock_avail_args)
| OLayoutrecallArgs (a : layoutrecall_args)
| ONotifyDeviceArgs (a : notify_device_args)
| ODelegrecallArgs (a : delegrecall_args).

(** ** Observable events *)

(** A call through a slot of [up_ops], with the arguments as the callee is
    given them.  A buffer descriptor appears twice: as the descriptor itself
    and as the bytes it designates when the call is made. *)
Inductive upcall :=
| Call_invalidate (export : ptr) (obj : gsh_buffdesc) (key : list byte)
    (flags : Z)
| Call_update (export : ptr) (obj : gsh_buffdesc) (key : list byte)
    (attr : attrlist) (flags : Z)
| Call_lock_grant (export : ptr) (file : gsh_buffdesc) (key : list byte)
    (owner : ptr) (lock_param : fsal_lock_param_t)
| Call_lock_avail (export : ptr) (file : gsh_buffdesc) (key : list byte)
    (owner : ptr) (lock_param : fsal_lock_param_t)
| Call_layoutrecall (export : ptr) (handle : gsh_buffdesc) (key : list byte)
    (layout_type : Z) (changed : bool) (segment : pnfs_segment)
    (cookie : ptr) (spec : option layoutrecall_spec)
| Call_notify_device (notify_type layout_type : Z) (devid : pnfs_deviceid)
    (immediate : bool)
| Call_delegrecall (export : ptr) (handle : gsh_buffdesc) (key : list byte).

Inductive event :=
| EvMalloc (l : loc)
| EvFree (l : loc)
| EvWorker (f : worker_fn) (arg : ptr)
| EvUpcall (via : ptr) (c : upcall)
| EvCallback (cb : positive) (cb_arg : ptr) (st : status)
| EvDelegrecallImpl (o : ptr).

Record world := World { heap : gmap loc obj; trace : list event }.

(** ** Reading the heap *)

Definition deref (h : gmap loc obj) (p : ptr) : option obj :=
  match p with
  | Ptr l => h !! l
  | _ => None
  end.

Definition as_buffdesc (o : obj) : option gsh_buffdesc :=
  match o with OBuffdesc d => Some d | _ => None end.
Definition as_attrlist (o : obj) : option attrlist :=
  match o with OAttrlist a => Some a | _ => None end.
Definition as_lock_param (o : obj) : option fsal_lock_param_t :=
  match o with OLockParam p => Some p | _ => None end.
Definition as_segment (o : obj) : option pnfs_segment :=
  match o with OSegment s => Some s | _ => None end.
Definition as_deviceid (o : obj) : option pnfs_deviceid :=
  match o with ODeviceid d => Some d | _ => None end.
Definition as_spec (o : obj) : option layoutrecall_spec :=
  match o with OSpec s => Some s | _ => None end.
Definition as_export (o : obj) : option fsal_export :=
  match o with OExport e => Some e | _ => None end.
Definition as_up_vector (o : obj) : option fsal_up_vector :=
  match o with OUpVector v => Some v | _ => None end.
Definition as_fridge (o : obj) : option fridgethr :=
  match o with OFridge f => Some f | _ => None end.
Definition as_invalidate_args (o : obj) : option invalidate_args :=
  match o with OInvalidateArgs a => Some a | _ => None end.
Definition as_update_args (o : obj) : option update_args :=
  match o with OUpdateArgs a => Some a | _ => None end.
Definition as_lock_grant_args (o : obj) : option lock_grant_args :=
  match o with OLockGrantArgs a => Some a | _ => None end.
Definition as_lock_avail_args (o : obj) : option lock_avail_args :=
  match o with OLockAvailArgs a => Some a | _ => None end.
Definition as_layoutrecall_args (o : obj) : option layoutrecall_args :=
  match o with OLayoutrecallArgs a => Some a | _ => None end.
Definition as_notify_device_args (o : obj) : option notify_device_args :=
  match o with ONotifyDeviceArgs a => Some a | _ => None end.
Definition as_delegrecall_args (o : obj) : option delegrecall_args :=
  match o with ODelegrecallArgs a => Some a | _ => None end.

(** The value of type [A] that [p] points to, if it points to one. *)
Definition deref_as {A} (proj : obj -> option A) (h : gmap loc obj) (p : ptr)
  : option A :=
  match deref h p with
  | Some o => proj o
  | None => None
  end.

(** The bytes of the flexible array member that ends an argument block. *)
Definition trailing (o : obj) : option (list byte) :=
  match o with
  | OInvalidateArgs a => Some (inv_key a)
  | OUpdateArgs a => Some (upd_key a)
  | OLockGrantArgs a => Some (lg_key a)
  | OLockAvailArgs a => Some (la_key a)
  | OLayoutrecallArgs a => Some (lr_data a)
  | ONotifyDeviceArgs a => Some []
  | ODelegrecallArgs a => Some (dr_key a)
  | _ => None
  end.

(** The byte array that starts at [p]. *)
Definition bytes_at (h : gmap loc obj) (p : ptr) : option (list byte) :=
  match p with
  | NULL => None
  | Ptr l => match h !! l with Some (OBytes bs) => Some bs | _ => None end
  | KeyOf l => match h !! l with Some o => trailing o | None => None end
  end.

(** The [n] bytes that start at [p], as the source operand of
    [memcpy (dst, p, n)].  The source never tests [p]: a read of no bytes
    touches no memory, so it yields the empty key whatever [p] is, also for
    [NULL].  A read of [n > 0] bytes needs a byte array of at least [n] bytes
    at [p]; a read that leaves the array is an invalid access. *)
Definition key_bytes (h : gmap loc obj) (p : ptr) (n : nat)
  : option (list byte) :=
  if decide (n = 0) then Some []
  else
    match bytes_at h p with
    | Some bs => if decide (n <= length bs) then Some (take n bs) else None
    | None => None
    end.

(** [export->up_ops], dereferenced. *)
Definition export_up_ops (h : gmap loc obj) (export : ptr)
  : option fsal_up_vector :=
  match deref_as as_export h export with
  | Some e => deref_as as_up_vector h (up_ops e)
  | None => None
  end.

(** ** The monad: state and fault *)

Definition M (A : Type) : Type := world -> option (A * world).

Definition ret {A} (x : A) : M A := fun w => Some (x, w).

Definition bind {A B} (m : M A) (k : A -> M B) : M B :=
  fun w => match m w with
           | Some (x, w') => k x w'
           | None => None
           end.

Definition fault {A} : M A := fun _ => None.

(** Read-only access to the heap; faults when the read has no value. *)
Definition peek {A} (f : gmap loc obj -> option A) : M A :=
  fun w => match f (heap w) with
           | Some x => Some (x, w)
           | None => None
           end.

Declare Scope up_scope.
Delimit Scope up_scope with up.
Notation "x <- m ;; k" := (bind m (fun x => k))
  (at level 100, m at next level, right associativity) : up_scope.
Notation "m ;; k" := (bind m (fun _ => k))
  (at level 100, right associativity) : up_scope.
Local Open Scope up_scope.

Definition emit (e : event) : M unit :=
  fun w => Some (tt, {| heap := heap w; trace := trace w ++ [e] |}).

Definition load {A} (proj : obj -> option A) (p : ptr) : M A :=
  peek (fun h => deref_as proj h p).

(** [memcpy]'s read of its source, and a callee's read of a descriptor. *)
Definition read_bytes (p : ptr) (n : nat) : M (list byte) :=
  peek (fun h => key_bytes h p n).

(** Modelled from the spec: [gsh_malloc] is the allocator of the tree's
    memory abstraction, for which allocation failure is fatal (it aborts), so
    it has no failure result.  [gsh_malloc(sizeof(struct ...) + extra)]
    gives a block at an address not in use, with room for [extra] trailing
    bytes and indeterminate content. *)
Definition gsh_malloc (extra : nat) : M loc :=
  fun w => let l := fresh (dom (heap w)) in
           Some (l, {| heap := <[l := OUninit extra]> (heap w);
                       trace := trace w ++ [EvMalloc l] |}).

(** The field assignments and the [memcpy] that initialise a fresh block.
    The bytes copied must fit the trailing room that was allocated. *)
Definition fill (l : loc) (o : obj) : M unit :=
  fun w => match heap w !! l, trailing o with
           | Some (OUninit extra), Some bs =>
               if decide (length bs <= extra)
               then Some (tt, {| heap := <[l := o]> (heap w);
                                 trace := trace w |})
               else None
           | _, _ => None
           end.

(** Modelled from the spec: [gsh_free(p)], of the same memory abstraction,
    releases the block at [p]; a null pointer is ignored, any other pointer
    must be the address of a live block. *)
Definition gsh_free (p : ptr) : M unit :=
  match p with
  | NULL => ret tt
  | Ptr l =>
      fun w => match heap w !! l with
               | Some _ => Some (tt, {| heap := delete l (heap w);
                                        trace := trace w ++ [EvFree l] |})
               | None => None
               end
  | KeyOf _ => fault
  end.

(** Overwrites the live block at [p]. *)
Definition put (p : ptr) (o : obj) : M unit :=
  match p with
  | Ptr l =>
      fun w => match heap w !! l with
               | Some _ => Some (tt, {| heap := <[l := o]> (heap w);
                                        trace := trace w |})
               | None => None
               end
  | _ => fault
  end.

(** ** Submission to the fridge *)

Definition enqueue (f : fridgethr) (j : job) : fridgethr :=
  {| fr_answer := fr_answer f; fr_queue := fr_queue f ++ [j] |}.

Definition dequeue (f : fridgethr) (i : nat) : fridgethr :=
  {| fr_answer := fr_answer f; fr_queue := delete i (fr_queue f) |}.

(** The code the fridge answers the next submission with. *)
Definition verdict (f : fridgethr) : Z := fr_answer f (length (fr_queue f)).

(** Modelled from the spec: [fridgethr_submit(fr, func, arg)] is defined in
    the thread-fridge support code.  It returns 0 and keeps the job for a
    pool thread, or returns the rejection code and keeps nothing. *)
Definition fridgethr_submit (fr : ptr) (func : worker_fn) (arg : ptr) : M Z :=
  f <- load as_fridge fr ;;
  let rc := verdict f in
  if decide (rc = 0%Z)
  then (put fr (OFridge (enqueue f (func, arg))) ;; ret rc)
  else ret rc.

(** [if (args->cb) args->cb(args->cb_arg, status);] *)
Definition run_cb (cb : funptr) (cb_arg : ptr) (st : status) : M unit :=
  match cb with
  | Some f => emit (EvCallback f cb_arg st)
  | None => ret tt
  end.

Section Async.

(** [posix2fsal_error] (fsal_convert) and [delegrecall_impl] (the upcall
    handlers) are defined elsewhere in the tree; they are parameters here. *)
Variable posix2fsal_error : Z -> fsal_errors_t.
Variable delegrecall_impl : ptr -> state_status_t.

(** ** Worker entry points

    Each takes [ctx->arg]. *)

Definition queue_invalidate (arg : ptr) : M unit :=
  args <- load as_invalidate_args arg ;;
  ops <- peek (fun h => export_up_ops h (inv_export args)) ;;
  key <- read_bytes (addr (inv_obj args)) (len (inv_obj args)) ;;
  emit (EvUpcall (inv_export args)
          (Call_invalidate (inv_export args) (inv_obj args) key
             (inv_flags args))) ;;
  let status := invalidate ops (inv_export args) key (inv_flags args) in
  run_cb (inv_cb args) (inv_cb_arg args) (Fsal status) ;;
  gsh_free arg.

Definition queue_update (arg : ptr) : M unit :=
  args <- load as_update_args arg ;;
  ops <- peek (fun h => export_up_ops h (upd_export args)) ;;
  key <- read_bytes (addr (upd_obj args)) (len (upd_obj args)) ;;
  emit (EvUpcall (upd_export args)
          (Call_update (upd_export args) (upd_obj args) key (upd_attr args)
             (upd_flags args))) ;;
  let status :=
    update ops (upd_export args) key (upd_attr args) (upd_flags args) in
  run_cb (upd_cb args) (upd_cb_arg args) (Fsal status) ;;
  gsh_free arg.

Definition queue_lock_grant (arg : ptr) : M unit :=
  args <- load as_lock_grant_args arg ;;
  ops <- peek (fun h => export_up_ops h (lg_export args)) ;;
  key <- read_bytes (addr (lg_file args)) (len (lg_file args)) ;;
  emit (EvUpcall (lg_export args)
          (Call_lock_grant (lg_export args) (lg_file args) key
             (lg_owner args) (lg_lock_param args))) ;;
  let status :=
    lock_grant ops (lg_export args) key (lg_owner args)
      (lg_lock_param args) in
  run_cb (lg_cb args) (lg_cb_arg args) (State status) ;;
  gsh_free arg.

Definition queue_lock_avail (arg : ptr) : M unit :=
  args <- load as_lock_avail_args arg ;;
  ops <- peek (fun h => export_up_ops h (la_export args)) ;;
  key <- read_bytes (addr (la_file args)) (len (la_file args)) ;;
  emit (EvUpcall (la_export args)
          (Call_lock_avail (la_export args) (la_file args) key
             (la_owner args) (la_lock_param args))) ;;
  let status :=
    lock_avail ops (la_export args) key (la_owner args)
      (la_lock_param args) in
  run_cb (la_cb args) (la_cb_arg args) (State status) ;;
  gsh_free arg.

(** [args->spec.how == layoutrecall_not_specced ? NULL : &args->spec] *)
Definition spec_argument (s : layoutrecall_spec) : option layoutrecall_spec :=
  if decide (how s = layoutrecall_not_specced) then None else Some s.

Definition queue_layoutrecall (arg : ptr) : M unit :=
  args <- load as_layoutrecall_args arg ;;
  ops <- peek (fun h => export_up_ops h (lr_export args)) ;;
  key <- read_bytes (addr (lr_handle args)) (len (lr_handle args)) ;;
  emit (EvUpcall (lr_export args)
          (Call_layoutrecall (lr_export args) (lr_handle args) key
             (lr_layout_type args) (lr_changed args) (lr_segment args)
             (lr_cookie args) (spec_argument (lr_spec args)))) ;;
  let status :=
    layoutrecall ops (lr_export args) key (lr_layout_type args)
      (lr_changed args) (lr_segment args) (lr_cookie args)
      (spec_argument (lr_spec args)) in
  run_cb (lr_cb args) (lr_cb_arg args) (State status) ;;
  gsh_free arg.

Definition queue_notify_device (arg : ptr) : M unit :=
  args <- load as_notify_device_args arg ;;
  ops <- peek (fun h => export_up_ops h (nd_export args)) ;;
  emit (EvUpcall (nd_export args)
          (Call_notify_device (nd_notify_type args) (nd_layout_type args)
             (nd_devid args) (nd_immediate args))) ;;
  let status :=
    notify_device ops (nd_notify_type args) (nd_layout_type args)
      (nd_devid args) (nd_immediate args) in
  run_cb (nd_cb args) (nd_cb_arg args) (State status) ;;
  gsh_free arg.

(** [(void)delegrecall_impl(obj);] *)
Definition queue_delegrecall (arg : ptr) : M unit :=
  let obj := arg in
  let _ := delegrecall_impl obj in
  emit (EvDelegrecallImpl obj).

Definition up_queue_delegrecall (arg : ptr) : M unit :=
  args <- load as_delegrecall_args arg ;;
  ops <- peek (fun h => export_up_ops h (dr_export args)) ;;
  key <- read_bytes (addr (dr_handle args)) (len (dr_handle args)) ;;
  emit (EvUpcall (dr_export args)
          (Call_delegrecall (dr_export args) (dr_handle args) key)) ;;
  let status := delegrecall ops (dr_export args) key in
  run_cb (dr_cb args) (dr_cb_arg args) (State status) ;;
  gsh_free arg.

(** ** Entry points *)

Definition up_async_invalidate (fr export obj : ptr) (flags : Z)
    (cb : funptr) (cb_arg : ptr) : M fsal_status_t :=
  d <- load as_buffdesc obj ;;
  args <- gsh_malloc (len d) ;;
  key <- read_bytes (addr d) (len d) ;;
  fill args (OInvalidateArgs
    {| inv_export := export;
       inv_obj := {| addr := KeyOf args; len := len d |};
       inv_flags := flags;
       inv_cb := cb;
       inv_cb_arg := cb_arg;
       inv_key := key |}) ;;
  rc <- fridgethr_submit fr fn_queue_invalidate (Ptr args) ;;
  (if decide (rc <> 0%Z) then gsh_free (Ptr args) else ret tt) ;;
  ret (fsalstat (posix2fsal_error rc) rc).

Definition up_async_update (fr export obj attr : ptr) (flags : Z)
    (cb : funptr) (cb_arg : ptr) : M fsal_status_t :=
  d <- load as_buffdesc obj ;;
  args <- gsh_malloc (len d) ;;
  a <- load as_attrlist attr ;;
  key <- read_bytes (addr d) (len d) ;;
  fill args (OUpdateArgs
    {| upd_export := export;
       upd_obj := {| addr := KeyOf args; len := len d |};
       upd_attr := a;
       upd_flags := flags;
       upd_cb := cb;
       upd_cb_arg := cb_arg;
       upd_key := key |}) ;;
  rc <- fridgethr_submit fr fn_queue_update (Ptr args) ;;
  (if decide (rc <> 0%Z) then gsh_free (Ptr args) else ret tt) ;;
  ret (fsalstat (posix2fsal_error rc) rc).

Definition up_async_lock_grant (fr export file owner lock_param : ptr)
    (cb : funptr) (cb_arg : ptr) : M fsal_status_t :=
  d <- load as_buffdesc file ;;
  args <- gsh_malloc (len d) ;;
  lp <- load as_lock_param lock_param ;;
  key <- read_bytes (addr d) (len d) ;;
  fill args (OLockGrantArgs
    {| lg_export := export;
       lg_file := {| addr := KeyOf args; len := len d |};
       lg_owner := owner;
       lg_lock_param := lp;
       lg_cb := cb;
       lg_cb_arg := cb_arg;
       lg_key := key |}) ;;
  rc <- fridgethr_submit fr fn_queue_lock_grant (Ptr args) ;;
  (if decide (rc <> 0%Z) then gsh_free (Ptr args) else ret tt) ;;
  ret (fsalstat (posix2fsal_error rc) rc).

Definition up_async_lock_avail (fr export file owner lock_param : ptr)
    (cb : funptr) (cb_arg : ptr) : M fsal_status_t :=
  d <- load as_buffdesc file ;;
  args <- gsh_malloc (len d) ;;
  lp <- load as_lock_param lock_param ;;
  key <- read_bytes (addr d) (len d) ;;
  fill args (OLockAvailArgs
    {| la_export := export;
       la_file := {| addr := KeyOf args; len := len d |};
       la_owner := owner;
       la_lock_param := lp;
       la_cb := cb;
       la_cb_arg := cb_arg;
       la_key := key |}) ;;
  rc <- fridgethr_submit fr fn_queue_lock_avail (Ptr args) ;;
  (if decide (rc <> 0%Z) then gsh_free (Ptr args) else ret tt) ;;
  ret (fsalstat (posix2fsal_error rc) rc).

(** [if (spec) args->spec = *spec; else args->spec.how =
    layoutrecall_not_specced;] -- in the second case the union keeps the
    indeterminate content of the fresh block. *)
Definition load_spec (spec : ptr) : M layoutrecall_spec :=
  match spec with
  | NULL => ret {| how := layoutrecall_not_specced; u := None |}
  | _ => load as_spec spec
  end.

Definition up_async_layoutrecall (fr export handle : ptr) (layout_type : Z)
    (changed : bool) (segment cookie spec : ptr)
    (cb : funptr) (cb_arg : ptr) : M fsal_status_t :=
  d <- load as_buffdesc handle ;;
  args <- gsh_malloc (len d) ;;
  key <- read_bytes (addr d) (len d) ;;
  seg <- load as_segment segment ;;
  sp <- load_spec spec ;;
  fill args (OLayoutrecallArgs
    {| lr_export := export;
       lr_handle := {| addr := KeyOf args; len := len d |};
       lr_layout_type := layout_type;
       lr_changed := changed;
       lr_segment := seg;
       lr_cookie := cookie;
       lr_spec := sp;
       lr_cb := cb;
       lr_cb_arg := cb_arg;
       lr_data := key |}) ;;
  rc <- fridgethr_submit fr fn_queue_layoutrecall (Ptr args) ;;
  (if decide (rc <> 0%Z) then gsh_free (Ptr args) else ret tt) ;;
  ret (fsalstat (posix2fsal_error rc) rc).

Definition up_async_notify_device (fr export : ptr)
    (notify_type layout_type : Z) (devid : ptr) (immediate : bool)
    (cb : funptr) (cb_arg : ptr) : M fsal_status_t :=
  args <- gsh_malloc 0 ;;
  dev <- load as_deviceid devid ;;
  fill args (ONotifyDeviceArgs
    {| nd_export := export;
       nd_notify_type := notify_type;
       nd_layout_type := layout_type;
       nd_devid := dev;
       nd_immediate := immediate;
       nd_cb := cb;
       nd_cb_arg := cb_arg |}) ;;
  rc <- fridgethr_submit fr fn_queue_notify_device (Ptr args) ;;
  (if decide (rc <> 0%Z) then gsh_free (Ptr args) else ret tt) ;;
  ret (fsalstat (posix2fsal_error rc) rc).

Definition async_delegrecall (fr obj : ptr) : M Z :=
  rc <- fridgethr_submit fr fn_queue_delegrecall obj ;;
  ret rc.

Definition up_async_delegrecall (fr export handle : ptr)
    (cb : funptr) (cb_arg : ptr) : M fsal_status_t :=
  d <- load as_buffdesc handle ;;
  args <- gsh_malloc (len d) ;;
  key <- read_bytes (addr d) (len d) ;;
  fill args (ODelegrecallArgs
    {| dr_export := export;
       dr_handle := {| addr := KeyOf args; len := len d |};
       dr_cb := cb;
       dr_cb_arg := cb_arg;
       dr_key := key |}) ;;
  rc <- fridgethr_submit fr fn_up_queue_delegrecall (Ptr args) ;;
  (if decide (rc <> 0%Z) then gsh_free (Ptr args) else ret tt) ;;
  ret (fsalstat (posix2fsal_error rc) rc).

(** ** A fridge thread *)

(** The body behind each code address. *)
Definition entry_point (func : worker_fn) : ptr -> M unit :=
  match func with
  | fn_queue_invalidate => queue_invalidate
  | fn_queue_update => queue_update
  | fn_queue_lock_grant => queue_lock_grant
  | fn_queue_lock_avail => queue_lock_avail
  | fn_queue_layoutrecall => queue_layoutrecall
  | fn_queue_notify_device => queue_notify_device
  | fn_queue_delegrecall => queue_delegrecall
  | fn_up_queue_delegrecall => up_queue_delegrecall
  end.

(** Modelled from the spec: a pool thread takes one pending job (the pool
    promises no order, so any position [i]), removes it from the pending
    list, and calls its entry point with the submitted argument.  A job is
    therefore run at most once. *)
Definition fridgethr_dispatch (fr : ptr) (i : nat) : M unit :=
  f <- load as_fridge fr ;;
  match fr_queue f !! i with
  | Some (func, arg) =>
      put fr (OFridge (dequeue f i)) ;;
      emit (EvWorker func arg) ;;
      entry_point func arg
  | None => ret tt
  end.

(** ** The entry points taken together

    The claims quantify over "every operation kind".  [up_call] is the
    argument list of one [up_async_*] call; [up_async] makes the call. *)

Inductive up_call :=
| Async_invalidate (export obj : ptr) (flags : Z) (cb : funptr) (cb_arg : ptr)
| Async_update (export obj attr : ptr) (flags : Z) (cb : funptr)
    (cb_arg : ptr)
| Async_lock_grant (export file owner lock_param : ptr) (cb : funptr)
    (cb_arg : ptr)
| Async_lock_avail (export file owner lock_param : ptr) (cb : funptr)
    (cb_arg : ptr)
| Async_layoutrecall (export handle : ptr) (layout_type : Z) (changed : bool)
    (segment cookie spec : ptr) (cb : funptr) (cb_arg : ptr)
| Async_notify_device (export : ptr) (notify_type layout_type : Z)
    (devid : ptr) (immediate : bool) (cb : funptr) (cb_arg : ptr)
| Async_delegrecall (export handle : ptr) (cb : funptr) (cb_arg : ptr).

Definition up_async (fr : ptr) (c : up_call) : M fsal_status_t :=
  match c with
  | Async_invalidate export obj flags cb cb_arg =>
      up_async_invalidate fr export obj flags cb cb_arg
  | Async_update export obj attr flags cb cb_arg =>
      up_async_update fr export obj attr flags cb cb_arg
  | Async_lock_grant export file owner lock_param cb cb_arg =>
      up_async_lock_grant fr export file owner lock_param cb cb_arg
  | Async_lock_avail export file owner lock_param cb cb_arg =>
      up_async_lock_avail fr export file owner lock_param cb cb_arg
  | Async_layoutrecall export handle layout_type changed segment cookie spec
      cb cb_arg =>
      up_async_layoutrecall fr export handle layout_type changed segment
        cookie spec cb cb_arg
  | Async_notify_device export notify_type layout_type devid immediate
      cb cb_arg =>
      up_async_notify_device fr export notify_type layout_type devid
        immediate cb cb_arg
  | Async_delegrecall export handle cb cb_arg =>
      up_async_delegrecall fr export handle cb cb_arg
  end.

(** The worker entry point each [up_async_*] submits. *)
Definition worker_of (c : up_call) : worker_fn :=
  match c with
  | Async_invalidate _ _ _ _ _ => fn_queue_invalidate
  | Async_update _ _ _ _ _ _ => fn_queue_update
  | Async_lock_grant _ _ _ _ _ _ => fn_queue_lock_grant
  | Async_lock_avail _ _ _ _ _ _ => fn_queue_lock_avail
  | Async_layoutrecall _ _ _ _ _ _ _ _ _ => fn_queue_layoutrecall
  | Async_notify_device _ _ _ _ _ _ _ => fn_queue_notify_device
  | Async_delegrecall _ _ _ _ => fn_up_queue_delegrecall
  end.

Definition call_export (c : up_call) : ptr :=
  match c with
  | Async_invalidate e _ _ _ _ | Async_update e _ _ _ _ _
  | Async_lock_grant e _ _ _ _ _ | Async_lock_avail e _ _ _ _ _
  | Async_layoutrecall e _ _ _ _ _ _ _ _ | Async_notify_device e _ _ _ _ _ _
  | Async_delegrecall e _ _ _ => e
  end.

Definition call_cb (c : up_call) : funptr :=
  match c with
  | Async_invalidate _ _ _ cb _ | Async_update _ _ _ _ cb _
  | Async_lock_grant _ _ _ _ cb _ | Async_lock_avail _ _ _ _ cb _
  | Async_layoutrecall _ _ _ _ _ _ _ cb _
  | Async_notify_device _ _ _ _ _ cb _
  | Async_delegrecall _ _ cb _ => cb
  end.

Definition call_cb_arg (c : up_call) : ptr :=
  match c with
  | Async_invalidate _ _ _ _ a | Async_update _ _ _ _ _ a
  | Async_lock_grant _ _ _ _ _ a | Async_lock_avail _ _ _ _ _ a
  | Async_layoutrecall _ _ _ _ _ _ _ _ a
  | Async_notify_device _ _ _ _ _ _ a
  | Async_delegrecall _ _ _ a => a
  end.

(** The caller's pointer to the descriptor of its key or handle; the
    notify-device call has none. *)
Definition call_desc (c : up_call) : option ptr :=
  match c with
  | Async_invalidate _ d _ _ _ | Async_update _ d _ _ _ _
  | Async_lock_grant _ d _ _ _ _ | Async_lock_avail _ d _ _ _ _
  | Async_layoutrecall _ d _ _ _ _ _ _ _
  | Async_delegrecall _ d _ _ => Some d
  | Async_notify_device _ _ _ _ _ _ _ => None
  end.

(** The caller's [owner] (lock grant, lock avail) or [cookie] (layout
    recall): a [void *] the entry point never looks behind. *)
Definition call_opaque (c : up_call) : option ptr :=
  match c with
  | Async_lock_grant _ _ owner _ _ _ | Async_lock_avail _ _ owner _ _ _ =>
      Some owner
  | Async_layoutrecall _ _ _ _ _ cookie _ _ _ => Some cookie
  | _ => None
  end.

Inductive op_kind :=
| Op_invalidate
| Op_update
| Op_lock_grant
| Op_lock_avail
| Op_layoutrecall
| Op_notify_device
| Op_delegrecall.

Global Instance op_kind_eq_dec : EqDecision op_kind.
Proof. solve_decision. Defined.

Definition kind_of (c : up_call) : op_kind :=
  match c with
  | Async_invalidate _ _ _ _ _ => Op_invalidate
  | Async_update _ _ _ _ _ _ => Op_update
  | Async_lock_grant _ _ _ _ _ _ => Op_lock_grant
  | Async_lock_avail _ _ _ _ _ _ => Op_lock_avail
  | Async_layoutrecall _ _ _ _ _ _ _ _ _ => Op_layoutrecall
  | Async_notify_device _ _ _ _ _ _ _ => Op_notify_device
  | Async_delegrecall _ _ _ _ => Op_delegrecall
  end.

(** The slot of [up_ops] an upcall went through. *)
Definition slot_of (u : upcall) : op_kind :=
  match u with
  | Call_invalidate _ _ _ _ => Op_invalidate
  | Call_update _ _ _ _ _ => Op_update
  | Call_lock_grant _ _ _ _ _ => Op_lock_grant
  | Call_lock_avail _ _ _ _ _ => Op_lock_avail
  | Call_layoutrecall _ _ _ _ _ _ _ _ => Op_layoutrecall
  | Call_notify_device _ _ _ _ => Op_notify_device
  | Call_delegrecall _ _ _ => Op_delegrecall
  end.

(** The status a call through table [ops] returns. *)
Definition upcall_status (ops : fsal_up_vector) (u : upcall) : status :=
  match u with
  | Call_invalidate e _ k f => Fsal (invalidate ops e k f)
  | Call_update e _ k a f => Fsal (update ops e k a f)
  | Call_lock_grant e _ k o lp => State (lock_grant ops e k o lp)
  | Call_lock_avail e _ k o lp => State (lock_avail ops e k o lp)
  | Call_layoutrecall e _ k lt ch seg ck sp =>
      State (layoutrecall ops e k lt ch seg ck sp)
  | Call_notify_device nt lt dev imm => State (notify_device ops nt lt dev imm)
  | Call_delegrecall e _ k => State (delegrecall ops e k)
  end.

(** The parts of an upcall. *)
Definition upcall_export (u : upcall) : option ptr :=
  match u with
  | Call_invalidate e _ _ _ | Call_update e _ _ _ _
  | Call_lock_grant e _ _ _ _ | Call_lock_avail e _ _ _ _
  | Call_layoutrecall e _ _ _ _ _ _ _ | Call_delegrecall e _ _ => Some e
  | Call_notify_device _ _ _ _ => None
  end.

Definition upcall_desc (u : upcall) : option gsh_buffdesc :=
  match u with
  | Call_invalidate _ d _ _ | Call_update _ d _ _ _
  | Call_lock_grant _ d _ _ _ | Call_lock_avail _ d _ _ _
  | Call_layoutrecall _ d _ _ _ _ _ _ | Call_delegrecall _ d _ => Some d
  | Call_notify_device _ _ _ _ => None
  end.

Definition upcall_key (u : upcall) : option (list byte) :=
  match u with
  | Call_invalidate _ _ k _ | Call_update _ _ k _ _
  | Call_lock_grant _ _ k _ _ | Call_lock_avail _ _ k _ _
  | Call_layoutrecall _ _ k _ _ _ _ _ | Call_delegrecall _ _ k => Some k
  | Call_notify_device _ _ _ _ => None
  end.

Definition upcall_opaque (u : upcall) : option ptr :=
  match u with
  | Call_lock_grant _ _ _ o _ | Call_lock_avail _ _ _ o _ => Some o
  | Call_layoutrecall _ _ _ _ _ _ ck _ => Some ck
  | _ => None
  end.

(** The fixed-size, operation-specific arguments, as values. *)
Inductive fixed_args :=
| Fixed_invalidate (flags : Z)
| Fixed_update (attr : attrlist) (flags : Z)
| Fixed_lock_grant (lock_param : fsal_lock_param_t)
| Fixed_lock_avail (lock_param : fsal_lock_param_t)
| Fixed_layoutrecall (layout_type : Z) (changed : bool)
    (segment : pnfs_segment) (spec : option layoutrecall_spec)
| Fixed_notify_device (notify_type layout_type : Z) (devid : pnfs_deviceid)
    (immediate : bool)
| Fixed_delegrecall.

Definition upcall_fixed (u : upcall) : fixed_args :=
  match u with
  | Call_invalidate _ _ _ f => Fixed_invalidate f
  | Call_update _ _ _ a f => Fixed_update a f
  | Call_lock_grant _ _ _ _ lp => Fixed_lock_grant lp
  | Call_lock_avail _ _ _ _ lp => Fixed_lock_avail lp
  | Call_layoutrecall _ _ _ lt ch seg _ sp => Fixed_layoutrecall lt ch seg sp
  | Call_notify_device nt lt dev imm => Fixed_notify_device nt lt dev imm
  | Call_delegrecall _ _ _ => Fixed_delegrecall
  end.

(** The caller's recall specification: absent for a null pointer, else the
    structure pointed to. *)
Definition supplied_spec (h : gmap loc obj) (spec : ptr)
  : option (option layoutrecall_spec) :=
  match spec with
  | NULL => Some None
  | _ => match deref_as as_spec h spec with
         | Some s => Some (Some s)
         | None => None
         end
  end.

(** What the caller supplies when it makes call [c] in heap [h]: the bytes
    its descriptor designates, and the values of its fixed-size arguments
    (read through the pointers it passes).  No value when a pointer the
    entry point reads is invalid. *)
Definition supplied_key (h : gmap loc obj) (c : up_call)
  : option (list byte) :=
  match call_desc c with
  | Some p => match deref_as as_buffdesc h p with
              | Some d => key_bytes h (addr d) (len d)
              | None => None
              end
  | None => None
  end.

Definition supplied_fixed (h : gmap loc obj) (c : up_call)
  : option fixed_args :=
  match c with
  | Async_invalidate _ _ flags _ _ => Some (Fixed_invalidate flags)
  | Async_update _ _ attr flags _ _ =>
      match deref_as as_attrlist h attr with
      | Some a => Some (Fixed_update a flags)
      | None => None
      end
  | Async_lock_grant _ _ _ lock_param _ _ =>
      match deref_as as_lock_param h lock_param with
      | Some lp => Some (Fixed_lock_grant lp)
      | None => None
      end
  | Async_lock_avail _ _ _ lock_param _ _ =>
      match deref_as as_lock_param h lock_param with
      | Some lp => Some (Fixed_lock_avail lp)
      | None => None
      end
  | Async_layoutrecall _ _ layout_type changed segment _ spec _ _ =>
      match deref_as as_segment h segment, supplied_spec h spec with
      | Some seg, Some sp => Some (Fixed_layoutrecall layout_type changed seg sp)
      | _, _ => None
      end
  | Async_notify_device _ notify_type layout_type devid immediate _ _ =>
      match deref_as as_deviceid h devid with
      | Some dev =>
          Some (Fixed_notify_device notify_type layout_type dev immediate)
      | None => None
      end
  | Async_delegrecall _ _ _ _ => Some Fixed_delegrecall
  end.

(** The arguments of a call are valid in [h]: every pointer the entry point
    reads through designates an object of its type, and the descriptor, when
    the kind has one, designates [len] readable bytes (any address when
    [len] is zero).  Nothing is asked of the pointers the entry point only
    stores: the export, the opaque pointer, the callback and its argument. *)
Definition valid_arguments (h : gmap loc obj) (c : up_call) : Prop :=
  is_Some (supplied_fixed h c) /\
  (is_Some (call_desc c) -> is_Some (supplied_key h c)).

(** A recall specification whose tag is the sentinel reads as absent. *)
Definition effective_spec (sp : option layoutrecall_spec)
  : option layoutrecall_spec :=
  match sp with
  | Some s => spec_argument s
  | None => None
  end.

Definition effective_fixed (fx : fixed_args) : fixed_args :=
  match fx with
  | Fixed_layoutrecall lt ch seg sp =>
      Fixed_layoutrecall lt ch seg (effective_spec sp)
  | _ => fx
  end.

(** The events of [if (args->cb) args->cb(args->cb_arg, status)]. *)
Definition cb_events (cb : funptr) (cb_arg : ptr) (st : status)
  : list event :=
  match cb with
  | Some f => [EvCallback f cb_arg st]
  | None => []
  end.

(** The two outcomes of a call that started in [w0], answered [st] and left
    [w1]: the task at [t] was handed to the fridge, or the submission was
    rejected with code [rc]. *)
Definition handed_off (fr : ptr) (c : up_call) (w0 w1 : world)
    (st : fsal_status_t) (t : loc) : Prop :=
  exists f0,
    deref_as as_fridge (heap w0) fr = Some f0 /\
    deref_as as_fridge (heap w1) fr
      = Some (enqueue f0 (worker_of c, Ptr t)) /\
    is_Some (heap w1 !! t) /\
    trace w1 = trace w0 ++ [EvMalloc t] /\
    minor st = 0%Z.

Definition rejected (w0 w1 : world) (st : fsal_status_t) (t : loc) (rc : Z)
  : Prop :=
  rc <> 0%Z /\
  heap w1 = heap w0 /\
  trace w1 = trace w0 ++ [EvMalloc t; EvFree t] /\
  st = fsalstat (posix2fsal_error rc) rc.


(** The recall specification as it is stored in the argument block. *)
Definition stored_spec (sp : option layoutrecall_spec) : layoutrecall_spec :=
  match sp with
  | Some s => s
  | None => {| how := layoutrecall_not_specced; u := None |}
  end.

(** The argument block that call [c] builds at address [t] from the key
    bytes and the fixed-size values supplied. *)
Definition task_of (t : loc) (c : up_call) (key : option (list byte))
    (fx : fixed_args) : option obj :=
  match c, key, fx with
  | Async_invalidate export _ _ cb cb_arg, Some k, Fixed_invalidate flags =>
      Some (OInvalidateArgs
        {| inv_export := export;
           inv_obj := {| addr := KeyOf t; len := length k |};
           inv_flags := flags;
           inv_cb := cb;
           inv_cb_arg := cb_arg;
           inv_key := k |})
  | Async_update export _ _ _ cb cb_arg, Some k, Fixed_update a flags =>
      Some (OUpdateArgs
        {| upd_export := export;
           upd_obj := {| addr := KeyOf t; len := length k |};
           upd_attr := a;
           upd_flags := flags;
           upd_cb := cb;
           upd_cb_arg := cb_arg;
           upd_key := k |})
  | Async_lock_grant export _ owner _ cb cb_arg, Some k, Fixed_lock_grant lp =>
      Some (OLockGrantArgs
        {| lg_export := export;
           lg_file := {| addr := KeyOf t; len := length k |};
           lg_owner := owner;
           lg_lock_param := lp;
           lg_cb := cb;
           lg_cb_arg := cb_arg;
           lg_key := k |})
  | Async_lock_avail export _ owner _ cb cb_arg, Some k, Fixed_lock_avail lp =>
      Some (OLockAvailArgs
        {| la_export := export;
           la_file := {| addr := KeyOf t; len := length k |};
           la_owner := owner;
           la_lock_param := lp;
           la_cb := cb;
           la_cb_arg := cb_arg;
           la_key := k |})
  | Async_layoutrecall export _ _ _ _ cookie _ cb cb_arg, Some k,
    Fixed_layoutrecall lt ch seg sp =>
      Some (OLayoutrecallArgs
        {| lr_export := export;
           lr_handle := {| addr := KeyOf t; len := length k |};
           lr_layout_type := lt;
           lr_changed := ch;
           lr_segment := seg;
           lr_cookie := cookie;
           lr_spec := stored_spec sp;
           lr_cb := cb;
           lr_cb_arg := cb_arg;
           lr_data := k |})
  | Async_notify_device export _ _ _ _ cb cb_arg, None,
    Fixed_notify_device nt lt dev imm =>
      Some (ONotifyDeviceArgs
        {| nd_export := export;
           nd_notify_type := nt;
           nd_layout_type := lt;
           nd_devid := dev;
           nd_immediate := imm;
           nd_cb := cb;
           nd_cb_arg := cb_arg |})
  | Async_delegrecall export _ cb cb_arg, Some k, Fixed_delegrecall =>
      Some (ODelegrecallArgs
        {| dr_export := export;
           dr_handle := {| addr := KeyOf t; len := length k |};
           dr_cb := cb;
           dr_cb_arg := cb_arg;
           dr_key := k |})
  | _, _, _ => None
  end.

(** The call a worker makes from argument block [task], when the block's
    descriptor designates the block's own trailing bytes. *)
Definition upcall_of (task : obj) : option upcall :=
  match task with
  | OInvalidateArgs a =>
      Some (Call_invalidate (inv_export a) (inv_obj a) (inv_key a)
              (inv_flags a))
  | OUpdateArgs a =>
      Some (Call_update (upd_export a) (upd_obj a) (upd_key a) (upd_attr a)
              (upd_flags a))
  | OLockGrantArgs a =>
      Some (Call_lock_grant (lg_export a) (lg_file a) (lg_key a) (lg_owner a)
              (lg_lock_param a))
  | OLockAvailArgs a =>
      Some (Call_lock_avail (la_export a) (la_file a) (la_key a) (la_owner a)
              (la_lock_param a))
  | OLayoutrecallArgs a =>
      Some (Call_layoutrecall (lr_export a) (lr_handle a) (lr_data a)
              (lr_layout_type a) (lr_changed a) (lr_segment a) (lr_cookie a)
              (spec_argument (lr_spec a)))
  | ONotifyDeviceArgs a =>
      Some (Call_notify_device (nd_notify_type a) (nd_layout_type a)
              (nd_devid a) (nd_immediate a))
  | ODelegrecallArgs a =>
      Some (Call_delegrecall (dr_export a) (dr_handle a) (dr_key a))
  | _ => None
  end.

(** The heap after [put p o]. *)
Definition put_heap (p : ptr) (o : obj) (h : gmap loc obj) : gmap loc obj :=
  match p with
  | Ptr l => <[l := o]> h
  | _ => h
  end.

(** The recall specification an upcall carries. *)
Definition upcall_spec (u : upcall) : option layoutrecall_spec :=
  match u with
  | Call_layoutrecall _ _ _ _ _ _ _ sp => sp
  | _ => None
  end.

(** A present recall specification that carries the sentinel tag. *)
Definition sentinel_tagged (fx : fixed_args) : Prop :=
  match fx with
  | Fixed_layoutrecall _ _ _ (Some s) => how s = layoutrecall_not_specced
  | _ => False
  end.

(** ** Three sentences of the specification, as they are written

    Each is stated about the worker run on the task of a returned call. *)

(** "For every one of the seven operation kinds, the worker passes the
    export itself as an argument together with the relevant key/handle." *)
Definition every_kind_passes_export_and_key : Prop :=
  forall c fr w0 w1 st t u w3 rest,
    up_async fr c w0 = Some (st, w1) ->
    entry_point (worker_of c) (Ptr t) w1 = Some (tt, w3) ->
    trace w3 = trace w1 ++ EvUpcall (call_export c) u :: rest ->
    upcall_export u = Some (call_export c) /\ is_Some (upcall_key u).

(** "If the caller passes a present specification, the worker passes a
    specification equal to the caller's by-value copy." *)
Definition present_spec_is_handed_over : Prop :=
  forall fr export handle layout_type changed segment cookie spec cb cb_arg
         w0 w1 st t s u w3 rest,
    supplied_spec (heap w0) spec = Some (Some s) ->
    up_async fr
      (Async_layoutrecall export handle layout_type changed segment cookie
         spec cb cb_arg) w0 = Some (st, w1) ->
    entry_point fn_queue_layoutrecall (Ptr t) w1 = Some (tt, w3) ->
    trace w3 = trace w1 ++ EvUpcall export u :: rest ->
    upcall_spec u = Some s.

(** "The values the worker later hands to the operation entry point equal
    the values the caller supplied at submission time", for all fixed-size
    arguments, the recall specification among them. *)
Definition fixed_arguments_are_handed_over_unchanged : Prop :=
  forall c fr w0 w1 st t fx u w3 rest,
    supplied_fixed (heap w0) c = Some fx ->
    up_async fr c w0 = Some (st, w1) ->
    entry_point (worker_of c) (Ptr t) w1 = Some (tt, w3) ->
    trace w3 = trace w1 ++ EvUpcall (call_export c) u :: rest ->
    upcall_fixed u = fx.

(** ** Sample worlds

    A fridge at address 1 that answers every submission with [rc], an export
    at 2 whose table is at 3, the caller's descriptor at 4 for the [key]
    bytes at 5, and the caller's attribute set, lock parameters, segment,
    device id, recall specification and lock owner at 6 to 11. *)

Definition sample_ops : fsal_up_vector :=
  {| invalidate := fun _ key flags => fsalstat (Z.of_nat (length key)) flags;
     update := fun _ key _ flags => fsalstat (Z.of_nat (length key)) flags;
     lock_grant := fun _ key _ _ => Z.of_nat (length key);
     lock_avail := fun _ key _ _ => Z.of_nat (length key);
     layoutrecall := fun _ _ layout_type _ _ _ sp =>
                       match sp with Some _ => layout_type | None => 0%Z end;
     notify_device := fun notify_type _ _ _ => notify_type;
     delegrecall := fun _ key => Z.of_nat (length key) |}.

Definition sample_fridge (rc : Z) : fridgethr :=
  {| fr_answer := fun _ => rc; fr_queue := [] |}.

Definition sample_heap (rc : Z) (key : list byte) (sp : layoutrecall_spec)
  : gmap loc obj :=
  list_to_map
    [ (1%positive, OFridge (sample_fridge rc));
      (2%positive, OExport {| up_ops := Ptr 3 |});
      (3%positive, OUpVector sample_ops);
      (4%positive, OBuffdesc {| addr := Ptr 5; len := length key |});
      (5%positive, OBytes key);
      (6%positive, OAttrlist (Attrlist [7%Z; 8%Z]));
      (7%positive, OLockParam (LockParam [0%Z; 100%Z]));
      (8%positive, OSegment (Segment [1%Z; 0%Z; 4096%Z]));
      (9%positive, ODeviceid (Deviceid [3%Z; 5%Z]));
      (10%positive, OSpec sp);
      (11%positive, OBytes [x2a]) ].

Definition sample_world (rc : Z) (key : list byte) (sp : layoutrecall_spec)
  : world :=
  {| heap := sample_heap rc key sp; trace := [] |}.

Definition sample_key : list byte :=
  [x00; x01; x02; x03; x04; x05; x06; x07;
   x08; x09; x0a; x0b; x0c; x0d; x0e; x0f].

Definition sample_spec : layoutrecall_spec :=
  {| how := layoutrecall_howspec_other 0; u := Some 77%Z |}.

(** A present specification that carries the sentinel tag. *)
Definition sentinel_spec : layoutrecall_spec :=
  {| how := layoutrecall_not_specced; u := Some 77%Z |}.

Definition sample_invalidate : up_call :=
  Async_invalidate (Ptr 2) (Ptr 4) 1 (Some 9%positive) NULL.
Definition sample_update : up_call :=
  Async_update (Ptr 2) (Ptr 4) (Ptr 6) 1 (Some 9%positive) NULL.
Definition sample_lock_grant : up_call :=
  Async_lock_grant (Ptr 2) (Ptr 4) (Ptr 11) (Ptr 7) None NULL.
Definition sample_layoutrecall (spec : ptr) : up_call :=
  Async_layoutrecall (Ptr 2) (Ptr 4) 1 true (Ptr 8) (Ptr 11) spec
    (Some 9%positive) NULL.
Definition sample_notify_device : up_call :=
  Async_notify_device (Ptr 2) 1 2 (Ptr 9) true (Some 9%positive) NULL.
Definition sample_lock_avail : up_call :=
  Async_lock_avail (Ptr 2) (Ptr 4) (Ptr 11) (Ptr 7) (Some 9%positive) NULL.
Definition sample_delegrecall : up_call :=
  Async_delegrecall (Ptr 2) (Ptr 4) (Some 9%positive) NULL.

(** One sample call of each of the seven kinds, and the three that carry an
    opaque pointer. *)
Definition sample_calls : list up_call :=
  [ sample_invalidate; sample_update; sample_lock_grant; sample_lock_avail;
    sample_layoutrecall (Ptr 10); sample_notify_device; sample_delegrecall ].
Definition sample_opaque_calls : list up_call :=
  [ sample_lock_grant; sample_lock_avail; sample_layoutrecall (Ptr 10) ].

(** The world an accepted call leaves: the task at the address that was
    free, 12, and the job pending in the fridge. *)
Definition sample_handed (func : worker_fn) (task : obj) (key : list byte)
    (sp : layoutrecall_spec) : world :=
  {| heap := <[1%positive := OFridge (enqueue (sample_fridge 0)
                                        (func, Ptr 12))]>
               (<[12%positive := task]> (sample_heap 0 key sp));
     trace := [EvMalloc 12] |}.

Definition sample_invalidate_task : obj :=
  OInvalidateArgs
    {| inv_export := Ptr 2;
       inv_obj := {| addr := KeyOf 12; len := 16 |};
       inv_flags := 1;
       inv_cb := Some 9%positive;
       inv_cb_arg := NULL;
       inv_key := sample_key |}.

Definition sample_update_task : obj :=
  OUpdateArgs
    {| upd_export := Ptr 2;
       upd_obj := {| addr := KeyOf 12; len := 16 |};
       upd_attr := Attrlist [7%Z; 8%Z];
       upd_flags := 1;
       upd_cb := Some 9%positive;
       upd_cb_arg := NULL;
       upd_key := sample_key |}.

Definition sample_layoutrecall_task (sp : layoutrecall_spec) : obj :=
  OLayoutrecallArgs
    {| lr_export := Ptr 2;
       lr_handle := {| addr := KeyOf 12; len := 16 |};
       lr_layout_type := 1;
       lr_changed := true;
       lr_segment := Segment [1%Z; 0%Z; 4096%Z];
       lr_cookie := Ptr 11;
       lr_spec := sp;
       lr_cb := Some 9%positive;
       lr_cb_arg := NULL;
       lr_data := sample_key |}.

Definition sample_notify_device_task : obj :=
  ONotifyDeviceArgs
    {| nd_export := Ptr 2;
       nd_notify_type := 1;
       nd_layout_type := 2;
       nd_devid := Deviceid [3%Z; 5%Z];
       nd_immediate := true;
       nd_cb := Some 9%positive;
       nd_cb_arg := NULL |}.

(** The worlds the sample calls start in: a fridge that accepts, one that
    rejects with code 11, and an accepting one where the caller's recall
    specification carries the sentinel tag. *)
Definition sample_w0 : world := sample_world 0 sample_key sample_spec.
Definition sample_w0_busy : world := sample_world 11 sample_key sample_spec.
Definition sample_w0_sentinel : world :=
  sample_world 0 sample_key sentinel_spec.

(** The accepting sample world with the descriptor [{NULL, 0}]: no address
    and no bytes. *)
Definition sample_w0_nullkey : world :=
  {| heap := <[4%positive := OBuffdesc {| addr := NULL; len := 0 |}]>
               (heap sample_w0);
     trace := [] |}.

(** The world the accepted sample invalidate call leaves. *)
Definition sample_w1 : world :=
  sample_handed fn_queue_invalidate sample_invalidate_task sample_key
    sample_spec.

(** Stand-ins for the two functions defined elsewhere in the tree. *)
Definition sample_posix2fsal_error (rc : Z) : fsal_errors_t :=
  if decide (rc = 0%Z) then 0%Z else 21%Z.
Definition sample_delegrecall_impl (o : ptr) : state_status_t := 0%Z.

(** ** Further sample worlds *)

(** After the accepted sample invalidate call, an accepted notify-device
    call: its task at the next free address, 13, and two jobs pending. *)
Definition sample_w2 : world :=
  {| heap := <[1%positive := OFridge
                 (enqueue (enqueue (sample_fridge 0)
                             (fn_queue_invalidate, Ptr 12))
                    (fn_queue_notify_device, Ptr 13))]>
               (<[13%positive := sample_notify_device_task]> (heap sample_w1));
     trace := [EvMalloc 12; EvMalloc 13] |}.

(** The sample world with a descriptor that announces 8 of the 16 bytes. *)
Definition sample_w0_short : world :=
  {| heap := <[4%positive := OBuffdesc {| addr := Ptr 5; len := 8 |}]>
               (heap sample_w0);
     trace := [] |}.

(** The sample invalidate call with a null export, and its task. *)
Definition sample_invalidate_noexport : up_call :=
  Async_invalidate NULL (Ptr 4) 1 (Some 9%positive) NULL.

Definition sample_noexport_task : obj :=
  OInvalidateArgs
    {| inv_export := NULL;
       inv_obj := {| addr := KeyOf 12; len := 16 |};
       inv_flags := 1;
       inv_cb := Some 9%positive;
       inv_cb_arg := NULL;
       inv_key := sample_key |}.

(** ** Further vocabulary *)

(** The pointers an entry point reads through while it packages: the
    descriptor of the key or handle and the by-value structures.  The recall
    specification is absent from the list: it is read only behind
    [if (spec)]. *)
Definition dereferenced (c : up_call) : list ptr :=
  match c with
  | Async_invalidate _ obj _ _ _ => [obj]
  | Async_update _ obj attr _ _ _ => [obj; attr]
  | Async_lock_grant _ file _ lock_param _ _ => [file; lock_param]
  | Async_lock_avail _ file _ lock_param _ _ => [file; lock_param]
  | Async_layoutrecall _ handle _ _ segment _ _ _ _ => [handle; segment]
  | Async_notify_device _ _ _ devid _ _ _ => [devid]
  | Async_delegrecall _ handle _ _ => [handle]
  end.

(** Call [c] with another export argument. *)
Definition with_export (e : ptr) (c : up_call) : up_call :=
  match c with
  | Async_invalidate _ obj flags cb cb_arg =>
      Async_invalidate e obj flags cb cb_arg
  | Async_update _ obj attr flags cb cb_arg =>
      Async_update e obj attr flags cb cb_arg
  | Async_lock_grant _ file owner lock_param cb cb_arg =>
      Async_lock_grant e file owner lock_param cb cb_arg
  | Async_lock_avail _ file owner lock_param cb cb_arg =>
      Async_lock_avail e file owner lock_param cb cb_arg
  | Async_layoutrecall _ handle layout_type changed segment cookie spec
      cb cb_arg =>
      Async_layoutrecall e handle layout_type changed segment cookie spec
        cb cb_arg
  | Async_notify_device _ notify_type layout_type devid immediate cb cb_arg =>
      Async_notify_device e notify_type layout_type devid immediate cb cb_arg
  | Async_delegrecall _ handle cb cb_arg =>
      Async_delegrecall e handle cb cb_arg
  end.

(** ** Facts about the heap *)

Lemma key_bytes_length h p n k : key_bytes h p n = Some k -> length k = n.
Proof.
  unfold key_bytes. destruct (decide (n = 0)) as [->|_].
  { intros [= <-]. reflexivity. }
  destruct (bytes_at h p) as [bs|]; [|discriminate].
  destruct (decide (n <= length bs)); [|discriminate].
  intros [= <-]. rewrite length_take. lia.
Qed.

Lemma deref_as_alloc {A} (proj : obj -> option A) h t n p :
  h !! t = None -> proj (OUninit n) = None ->
  deref_as proj (<[t := OUninit n]> h) p = deref_as proj h p.
Proof.
  intros Ht Hp. unfold deref_as, deref. destruct p as [|l|l]; try reflexivity.
  destruct (decide (t = l)) as [<-|Hne].
  - rewrite lookup_insert_eq, Ht. exact Hp.
  - rewrite lookup_insert_ne by exact Hne. reflexivity.
Qed.

Lemma key_bytes_alloc h t n p k :
  h !! t = None ->
  key_bytes (<[t := OUninit n]> h) p k = key_bytes h p k.
Proof.
  intros Ht. unfold key_bytes, bytes_at.
  destruct (decide (k = 0)); [reflexivity|].
  destruct p as [|l|l]; try reflexivity.
  - destruct (decide (t = l)) as [<-|Hne].
    + rewrite lookup_insert_eq, Ht. reflexivity.
    + rewrite lookup_insert_ne by exact Hne. reflexivity.
  - destruct (decide (t = l)) as [<-|Hne].
    + rewrite lookup_insert_eq, Ht. reflexivity.
    + rewrite lookup_insert_ne by exact Hne. reflexivity.
Qed.

Lemma supplied_spec_alloc h t n p :
  h !! t = None ->
  supplied_spec (<[t := OUninit n]> h) p = supplied_spec h p.
Proof.
  intros Ht. unfold supplied_spec.
  destruct p; try reflexivity; rewrite deref_as_alloc; auto.
Qed.

Lemma fresh_heap (h : gmap loc obj) : h !! fresh (dom h) = None.
Proof. apply not_elem_of_dom, is_fresh. Qed.

(** ** Equations of the monad *)

Lemma bind_peek {A B} (f : gmap loc obj -> option A) (k : A -> M B) h tr :
  bind (peek f) k {| heap := h; trace := tr |} =
  match f h with
  | Some a => k a {| heap := h; trace := tr |}
  | None => None
  end.
Proof. unfold bind, peek; simpl. destruct (f h); reflexivity. Qed.

Lemma bind_load {A B} (proj : obj -> option A) p (k : A -> M B) h tr :
  bind (load proj p) k {| heap := h; trace := tr |} =
  match deref_as proj h p with
  | Some a => k a {| heap := h; trace := tr |}
  | None => None
  end.
Proof. exact (bind_peek (fun h => deref_as proj h p) k h tr). Qed.

Lemma bind_read_bytes {B} p n (k : list byte -> M B) h tr :
  bind (read_bytes p n) k {| heap := h; trace := tr |} =
  match key_bytes h p n with
  | Some a => k a {| heap := h; trace := tr |}
  | None => None
  end.
Proof. exact (bind_peek (fun h => key_bytes h p n) k h tr). Qed.

Lemma bind_malloc {B} n (k : loc -> M B) h tr :
  bind (gsh_malloc n) k {| heap := h; trace := tr |} =
  k (fresh (dom h))
    {| heap := <[fresh (dom h) := OUninit n]> h;
       trace := tr ++ [EvMalloc (fresh (dom h))] |}.
Proof. reflexivity. Qed.

Lemma bind_fill {B} l o (k : unit -> M B) h tr :
  bind (fill l o) k {| heap := h; trace := tr |} =
  match h !! l, trailing o with
  | Some (OUninit extra), Some bs =>
      if decide (length bs <= extra)
      then k tt {| heap := <[l := o]> h; trace := tr |}
      else None
  | _, _ => None
  end.
Proof.
  unfold bind, fill; simpl.
  destruct (h !! l) as [[]|]; try reflexivity.
  destruct (trailing o); try reflexivity.
  destruct (decide _); reflexivity.
Qed.

Lemma bind_emit {B} e (k : unit -> M B) h tr :
  bind (emit e) k {| heap := h; trace := tr |} =
  k tt {| heap := h; trace := tr ++ [e] |}.
Proof. reflexivity. Qed.

Lemma bind_free {B} l (k : unit -> M B) h tr :
  bind (gsh_free (Ptr l)) k {| heap := h; trace := tr |} =
  match h !! l with
  | Some _ => k tt {| heap := delete l h; trace := tr ++ [EvFree l] |}
  | None => None
  end.
Proof. unfold bind, gsh_free; simpl. destruct (h !! l); reflexivity. Qed.

Lemma bind_run_cb {B} cb cb_arg st (k : unit -> M B) h tr :
  bind (run_cb cb cb_arg st) k {| heap := h; trace := tr |} =
  k tt {| heap := h; trace := tr ++ cb_events cb cb_arg st |}.
Proof.
  destruct cb; simpl; [reflexivity|]. rewrite app_nil_r. reflexivity.
Qed.

(** [fr] is the address of fridge [f]. *)
Lemma deref_fridge h fr f :
  deref_as as_fridge h fr = Some f ->
  exists l, fr = Ptr l /\ h !! l = Some (OFridge f).
Proof.
  unfold deref_as, deref. destruct fr as [|l|l]; try discriminate.
  destruct (h !! l) as [[]|] eqn:E; try discriminate.
  intros [= <-]. eauto.
Qed.

Lemma bind_submit {B} fr func arg (k : Z -> M B) h tr :
  bind (fridgethr_submit fr func arg) k {| heap := h; trace := tr |} =
  match deref_as as_fridge h fr with
  | Some f =>
      if decide (verdict f = 0%Z)
      then k (verdict f)
             {| heap := put_heap fr (OFridge (enqueue f (func, arg))) h;
                trace := tr |}
      else k (verdict f) {| heap := h; trace := tr |}
  | None => None
  end.
Proof.
  unfold fridgethr_submit, bind, load, peek; cbn [heap trace].
  destruct (deref_as as_fridge h fr) as [f|] eqn:E; [|reflexivity].
  destruct (deref_fridge _ _ _ E) as (l & -> & Hl).
  destruct (decide _); [|reflexivity].
  unfold put, ret; cbn [heap trace put_heap]. rewrite Hl. reflexivity.
Qed.


Lemma deref_as_fresh {A} (proj : obj -> option A) h t o p :
  h !! t = None -> proj o = None ->
  deref_as proj (<[t := o]> h) p = deref_as proj h p.
Proof.
  intros Ht Hp. unfold deref_as, deref. destruct p as [|l|l]; try reflexivity.
  destruct (decide (t = l)) as [<-|Hne].
  - rewrite lookup_insert_eq, Ht. exact Hp.
  - rewrite lookup_insert_ne by exact Hne. reflexivity.
Qed.

Lemma bind_load_spec {B} spec (k : layoutrecall_spec -> M B) h tr :
  bind (load_spec spec) k {| heap := h; trace := tr |} =
  match supplied_spec h spec with
  | Some sp => k (stored_spec sp) {| heap := h; trace := tr |}
  | None => None
  end.
Proof.
  unfold load_spec, supplied_spec.
  destruct spec; try reflexivity; rewrite bind_load;
    destruct (deref_as _ _ _); reflexivity.
Qed.

(** The common tail of the entry points: submit, release on rejection,
    convert the code. *)
Lemma submit_tail fr func t task h tr :
  h !! t = None -> as_fridge task = None ->
  (rc <- fridgethr_submit fr func (Ptr t) ;;
   (if decide (rc <> 0%Z) then gsh_free (Ptr t) else ret tt) ;;
   ret (fsalstat (posix2fsal_error rc) rc))
    {| heap := <[t := task]> h; trace := tr ++ [EvMalloc t] |} =
  match deref_as as_fridge h fr with
  | Some f =>
      Some (fsalstat (posix2fsal_error (verdict f)) (verdict f),
            if decide (verdict f = 0%Z)
            then {| heap := put_heap fr (OFridge (enqueue f (func, Ptr t)))
                              (<[t := task]> h);
                    trace := tr ++ [EvMalloc t] |}
            else {| heap := h; trace := tr ++ [EvMalloc t; EvFree t] |})
  | None => None
  end.
Proof.
  intros Ht Htask. rewrite bind_submit, deref_as_fresh by assumption.
  destruct (deref_as as_fridge h fr) as [f|]; [|reflexivity].
  destruct (decide (verdict f = 0%Z)) as [E|E].
  - rewrite decide_False by (intros E'; exact (E' E)). reflexivity.
  - rewrite decide_True by exact E.
    rewrite bind_free, lookup_insert_eq, delete_insert_id by exact Ht.
    unfold bind, ret. rewrite <- app_assoc. reflexivity.
Qed.

Ltac pack_read Ht :=
  first [ rewrite bind_load | rewrite bind_read_bytes | rewrite bind_load_spec ];
  repeat first
    [ rewrite (deref_as_fresh _ _ _ _ _ Ht) by reflexivity
    | rewrite (key_bytes_alloc _ _ _ _ _ Ht)
    | rewrite (supplied_spec_alloc _ _ _ _ Ht) ];
  lazymatch goal with
  | |- match ?X with _ => _ end = _ => destruct X eqn:?
  end;
  [| repeat case_match; congruence ].

Ltac pack_fill Ht :=
  repeat match goal with
         | H : key_bytes _ _ _ = Some _ |- _ =>
             apply key_bytes_length in H; try rewrite <- H
         end;
  rewrite bind_fill, lookup_insert_eq;
  cbn [trailing inv_key upd_key lg_key la_key lr_data dr_key length];
  rewrite decide_True by lia;
  rewrite insert_insert_eq;
  rewrite submit_tail by (exact Ht || reflexivity);
  reflexivity.

Lemma up_async_eq fr c h tr :
  let t := fresh (dom h) in
  up_async fr c {| heap := h; trace := tr |} =
  match deref_as as_fridge h fr, supplied_fixed h c with
  | Some f, Some fx =>
      match task_of t c (supplied_key h c) fx with
      | Some task =>
          Some (fsalstat (posix2fsal_error (verdict f)) (verdict f),
                if decide (verdict f = 0%Z)
                then {| heap := put_heap fr
                                  (OFridge (enqueue f (worker_of c, Ptr t)))
                                  (<[t := task]> h);
                        trace := tr ++ [EvMalloc t] |}
                else {| heap := h; trace := tr ++ [EvMalloc t; EvFree t] |})
      | None => None
      end
  | _, _ => None
  end.
Proof.
  intros t.
  assert (Ht : h !! t = None) by apply fresh_heap.
  destruct c; cbn [up_async supplied_fixed supplied_key call_desc task_of worker_of];
  unfold up_async_invalidate, up_async_update, up_async_lock_grant, up_async_lock_avail, up_async_layoutrecall, up_async_notify_device, up_async_delegrecall.
  all: repeat first [ pack_read Ht | rewrite bind_malloc; fold t ].
  all: pack_fill Ht.
Qed.


(** ** The worker entry points on a packaged task *)

Lemma free_eq l h tr :
  gsh_free (Ptr l) {| heap := h; trace := tr |} =
  match h !! l with
  | Some _ => Some (tt, {| heap := delete l h; trace := tr ++ [EvFree l] |})
  | None => None
  end.
Proof. reflexivity. Qed.

Lemma deref_as_live {A} (proj : obj -> option A) h l o :
  h !! l = Some o -> deref_as proj h (Ptr l) = proj o.
Proof. intros H. unfold deref_as, deref. rewrite H. reflexivity. Qed.

Lemma deref_fridge_live h l f :
  h !! l = Some (OFridge f) -> deref_as as_fridge h (Ptr l) = Some f.
Proof. apply (deref_as_live as_fridge). Qed.

Lemma key_bytes_own h t o k :
  h !! t = Some o -> trailing o = Some k ->
  key_bytes h (KeyOf t) (length k) = Some k.
Proof.
  intros Ho Hk. unfold key_bytes, bytes_at. rewrite Ho, Hk.
  destruct (decide (length k = 0)) as [E|_].
  { destruct k; [reflexivity|discriminate E]. }
  rewrite decide_True by lia. rewrite take_ge by lia. reflexivity.
Qed.

Ltac args_cbn :=
  cbn [as_invalidate_args as_update_args as_lock_grant_args
       as_lock_avail_args as_layoutrecall_args as_notify_device_args
       as_delegrecall_args addr len
       inv_export inv_obj inv_flags inv_cb inv_cb_arg inv_key
       upd_export upd_obj upd_attr upd_flags upd_cb upd_cb_arg upd_key
       lg_export lg_file lg_owner lg_lock_param lg_cb lg_cb_arg lg_key
       la_export la_file la_owner la_lock_param la_cb la_cb_arg la_key
       lr_export lr_handle lr_layout_type lr_changed lr_segment lr_cookie
       lr_spec lr_cb lr_cb_arg lr_data
       nd_export nd_notify_type nd_layout_type nd_devid nd_immediate nd_cb
       nd_cb_arg
       dr_export dr_handle dr_cb dr_cb_arg dr_key].

Lemma entry_point_run c t k fx task h tr ops :
  task_of t c k fx = Some task ->
  h !! t = Some task ->
  export_up_ops h (call_export c) = Some ops ->
  exists u,
    entry_point (worker_of c) (Ptr t) {| heap := h; trace := tr |} =
      Some (tt, {| heap := delete t h;
                   trace := tr ++ [EvUpcall (call_export c) u] ++
                            cb_events (call_cb c) (call_cb_arg c)
                              (upcall_status ops u) ++
                            [EvFree t] |}) /\
    slot_of u = kind_of c /\
    upcall_key u = k /\
    upcall_fixed u = effective_fixed fx /\
    upcall_opaque u = call_opaque c /\
    upcall_desc u = (fun key => {| addr := KeyOf t; len := length key |}) <$> k /\
    upcall_export u =
      (if decide (kind_of c = Op_notify_device) then None
       else Some (call_export c)).
Proof.
  intros Htask Hh Hops.
  destruct c, k as [k|], fx; try discriminate Htask;
    injection Htask as <-;
    cbn [call_export call_cb call_cb_arg worker_of entry_point] in *;
    unfold queue_invalidate, queue_update, queue_lock_grant, queue_lock_avail,
      queue_layoutrecall, queue_notify_device, up_queue_delegrecall;
    lazymatch type of Hh with
    | _ = Some ?task =>
        let r := eval cbn in (upcall_of task) in
        lazymatch r with Some ?u => exists u end
    end;
    (split;
     [ rewrite bind_load, (deref_as_live _ _ _ _ Hh); args_cbn;
       rewrite bind_peek; args_cbn; rewrite Hops;
       try (rewrite bind_read_bytes; args_cbn;
            rewrite (key_bytes_own _ _ _ _ Hh) by reflexivity);
       rewrite bind_emit; cbv zeta; rewrite bind_run_cb, free_eq, Hh;
       rewrite <- !app_assoc; reflexivity
     | repeat split; try reflexivity;
       match goal with
       | sp : option layoutrecall_spec |- _ => destruct sp; reflexivity
       end ]).
Qed.





(** ** A fridge thread picking a job *)

Lemma deref_as_put {A} (proj : obj -> option A) h l o o' p :
  h !! l = Some o -> proj o = None -> proj o' = None ->
  deref_as proj (<[l := o']> h) p = deref_as proj h p.
Proof.
  intros Hl Ho Ho'. unfold deref_as, deref.
  destruct p as [|l'|l']; try reflexivity.
  destruct (decide (l = l')) as [<-|Hne].
  - rewrite lookup_insert_eq, Hl, Ho, Ho'. reflexivity.
  - rewrite lookup_insert_ne by exact Hne. reflexivity.
Qed.

Lemma export_up_ops_put h l f f' e :
  h !! l = Some (OFridge f) ->
  export_up_ops (<[l := OFridge f']> h) e = export_up_ops h e.
Proof.
  intros Hl. unfold export_up_ops.
  rewrite (deref_as_put as_export _ _ _ _ _ Hl) by reflexivity.
  destruct (deref_as as_export h e); [|reflexivity].
  apply (deref_as_put as_up_vector _ _ _ _ _ Hl); reflexivity.
Qed.

Lemma dispatch_eq frl f i func arg h tr :
  h !! frl = Some (OFridge f) ->
  fr_queue f !! i = Some (func, arg) ->
  fridgethr_dispatch (Ptr frl) i {| heap := h; trace := tr |} =
  entry_point func arg
    {| heap := <[frl := OFridge (dequeue f i)]> h;
       trace := tr ++ [EvWorker func arg] |}.
Proof.
  intros Hf Hi. unfold fridgethr_dispatch.
  rewrite bind_load, (deref_as_live _ _ _ _ Hf). cbn [as_fridge].
  rewrite Hi. unfold bind at 1, put. cbn [heap trace]. rewrite Hf.
  rewrite bind_emit. reflexivity.
Qed.

(** An argument block is not a fridge. *)
Lemma task_of_not_fridge t c k fx task :
  task_of t c k fx = Some task -> as_fridge task = None.
Proof.
  destruct c, k, fx; try discriminate; intros [= <-]; reflexivity.
Qed.

(** ** What a returned call has done *)

Lemma up_async_inv c fr w0 w1 st :
  up_async fr c w0 = Some (st, w1) ->
  let t := fresh (dom (heap w0)) in
  exists frl f0 fx task,
    fr = Ptr frl /\
    heap w0 !! frl = Some (OFridge f0) /\
    heap w0 !! t = None /\
    t <> frl /\
    supplied_fixed (heap w0) c = Some fx /\
    task_of t c (supplied_key (heap w0) c) fx = Some task /\
    st = fsalstat (posix2fsal_error (verdict f0)) (verdict f0) /\
    w1 = (if decide (verdict f0 = 0%Z)
          then {| heap := <[frl := OFridge (enqueue f0 (worker_of c, Ptr t))]>
                            (<[t := task]> (heap w0));
                  trace := trace w0 ++ [EvMalloc t] |}
          else {| heap := heap w0;
                  trace := trace w0 ++ [EvMalloc t; EvFree t] |}).
Proof.
  destruct w0 as [h tr]. cbn [heap trace]. intros H.
  set (t := fresh (dom h)). rewrite up_async_eq in H. fold t in H.
  destruct (deref_as as_fridge h fr) as [f0|] eqn:Hf; [|discriminate].
  destruct (supplied_fixed h c) as [fx|]; [|discriminate].
  destruct (task_of t c (supplied_key h c) fx) as [task|] eqn:Htask;
    [|discriminate].
  destruct (deref_fridge _ _ _ Hf) as (frl & -> & Hfrl).
  injection H as <- <-.
  assert (Ht : h !! t = None) by apply fresh_heap.
  exists frl, f0, fx, task. repeat split; try assumption.
  - intros E. rewrite E in Ht. congruence.
Qed.

(** The worker on the task of a returned, accepted call, in any later world
    that still holds the task. *)
Lemma task_runs c t k fx task w2 ops :
  task_of t c k fx = Some task ->
  heap w2 !! t = Some task ->
  export_up_ops (heap w2) (call_export c) = Some ops ->
  exists u,
    entry_point (worker_of c) (Ptr t) w2 =
      Some (tt, {| heap := delete t (heap w2);
                   trace := trace w2 ++ [EvUpcall (call_export c) u] ++
                            cb_events (call_cb c) (call_cb_arg c)
                              (upcall_status ops u) ++
                            [EvFree t] |}) /\
    slot_of u = kind_of c /\
    upcall_key u = k /\
    upcall_fixed u = effective_fixed fx /\
    upcall_opaque u = call_opaque c /\
    upcall_desc u = (fun key => {| addr := KeyOf t; len := length key |}) <$> k /\
    upcall_export u =
      (if decide (kind_of c = Op_notify_device) then None
       else Some (call_export c)).
Proof. destruct w2 as [h tr]. apply entry_point_run. Qed.

Lemma accepted_task c frl f0 t task h tr :
  t <> frl ->
  heap {| heap := <[frl := OFridge (enqueue f0 (worker_of c, Ptr t))]>
                    (<[t := task]> h);
          trace := tr |} !! t = Some task.
Proof.
  intros Hne. cbn [heap]. rewrite lookup_insert_ne by congruence.
  apply lookup_insert_eq.
Qed.

(** Packaging is defined as soon as the pointers it reads are valid. *)
Lemma task_of_defined h t c fx :
  supplied_fixed h c = Some fx ->
  (is_Some (call_desc c) -> is_Some (supplied_key h c)) ->
  is_Some (task_of t c (supplied_key h c) fx).
Proof.
  intros Hfx Hkey.
  destruct c; cbn [supplied_fixed] in Hfx;
    repeat case_match; try discriminate; injection Hfx as <-;
    try (destruct Hkey as [k Hk]; [cbn; eauto|]; rewrite Hk);
    cbn; eauto.
Qed.

Lemma enqueue_neq f j : enqueue f j <> f.
Proof.
  intros E. apply (f_equal (fun x => length (fr_queue x))) in E.
  cbn [enqueue fr_queue] in E. rewrite length_app in E. cbn in E. lia.
Qed.

(** A descriptor of length zero designates the empty key whatever its
    address is: [memcpy] of no bytes reads nothing. *)
Lemma supplied_key_zero_length h c dp a :
  call_desc c = Some dp ->
  deref_as as_buffdesc h dp = Some {| addr := a; len := 0 |} ->
  supplied_key h c = Some [].
Proof.
  intros Hd Hb. unfold supplied_key. rewrite Hd, Hb. reflexivity.
Qed.

(** A call with a valid fridge and valid arguments returns, whatever the
    operation kind and whatever the fridge answers. *)
Lemma up_async_returns c fr w0 f0 :
  deref_as as_fridge (heap w0) fr = Some f0 ->
  valid_arguments (heap w0) c ->
  exists st w1, up_async fr c w0 = Some (st, w1).
Proof.
  destruct w0 as [h tr]. cbn [heap]. intros Hf [[fx Hfx] Hkey].
  destruct (task_of_defined h (fresh (dom h)) c fx Hfx Hkey) as [task Htask].
  eexists _, _. rewrite up_async_eq, Hf, Hfx, Htask. reflexivity.
Qed.



(** ** The claims *)

(** C1.  For every operation kind (and so for every key length, zero
    included): when the fridge accepts the submission, the job is pending
    in the fridge once, and the fridge thread that picks it runs the worker
    entry point, which calls the operation's [up_ops] slot once, then calls
    the callback once with the status that call returned if and only if the
    stored callback is not null, then frees the argument block; the block is
    freed whatever the status and whether or not there is a callback.  Once
    picked, the job is pending no more.  This holds in any later world that
    still holds the task, the fridge and the export. *)
Theorem accepted_task_runs_once_in_order
    (c : up_call) (fr : ptr) (w0 w1 : world) (st : fsal_status_t)
    (f0 : fridgethr) :
  deref_as as_fridge (heap w0) fr = Some f0 ->
  verdict f0 = 0%Z ->
  up_async fr c w0 = Some (st, w1) ->
  exists t : loc,
    heap w0 !! t = None /\
    deref_as as_fridge (heap w1) fr
      = Some (enqueue f0 (worker_of c, Ptr t)) /\
    forall (w2 : world) (f2 : fridgethr) (i : nat) (ops : fsal_up_vector),
      heap w2 !! t = heap w1 !! t ->
      deref_as as_fridge (heap w2) fr = Some f2 ->
      fr_queue f2 !! i = Some (worker_of c, Ptr t) ->
      export_up_ops (heap w2) (call_export c) = Some ops ->
      exists (u : upcall) (w3 : world),
        fridgethr_dispatch fr i w2 = Some (tt, w3) /\
        trace w3 =
          trace w2 ++
          [EvWorker (worker_of c) (Ptr t); EvUpcall (call_export c) u] ++
          cb_events (call_cb c) (call_cb_arg c) (upcall_status ops u) ++
          [EvFree t] /\
        slot_of u = kind_of c /\
        heap w3 !! t = None /\
        deref_as as_fridge (heap w3) fr = Some (dequeue f2 i).
Proof.
  intros Hf Hv Hrun.
  destruct (up_async_inv _ _ _ _ _ Hrun)
    as (frl & f0' & fx & task & -> & Hfrl & Ht & Hne & Hfx & Htask & _ & ->).
  rewrite (deref_as_live _ _ _ _ Hfrl) in Hf. injection Hf as ->.
  rewrite decide_True by exact Hv.
  exists (fresh (dom (heap w0))). split; [exact Ht|]. split.
  { cbn [heap]. rewrite (deref_as_live _ _ _ (OFridge (enqueue f0
      (worker_of c, Ptr (fresh (dom (heap w0))))))); [reflexivity|].
    apply lookup_insert_eq. }
  intros w2 f2 i ops Hkeep Hf2 Hi Hops.
  rewrite accepted_task in Hkeep by exact Hne.
  destruct (deref_fridge _ _ _ Hf2) as (l & [= <-] & Hl).
  assert (Hne2 : frl <> fresh (dom (heap w0))).
  { intros E. rewrite E in Hl. rewrite Hkeep in Hl. injection Hl as Hl.
    apply task_of_not_fridge in Htask. rewrite Hl in Htask. discriminate. }
  destruct w2 as [h2 tr2]. cbn [heap trace] in *.
  destruct (task_runs c _ _ _ _
              {| heap := <[frl := OFridge (dequeue f2 i)]> h2;
                 trace := tr2 ++ [EvWorker (worker_of c)
                                    (Ptr (fresh (dom (heap w0))))] |}
              ops Htask)
    as (u & Hrun2 & Hslot & _).
  { cbn [heap]. rewrite lookup_insert_ne by exact Hne2. exact Hkeep. }
  { cbn [heap]. rewrite (export_up_ops_put _ _ _ _ _ Hl). exact Hops. }
  eexists u, _. split.
  { rewrite (dispatch_eq _ _ _ _ _ _ _ Hl Hi). exact Hrun2. }
  cbn [heap trace]. split; [rewrite <- !app_assoc; reflexivity|].
  split; [exact Hslot|]. split; [apply lookup_delete_eq|].
  rewrite (deref_as_live _ _ _ (OFridge (dequeue f2 i))); [reflexivity|].
  rewrite lookup_delete_ne by congruence. apply lookup_insert_eq.
Qed.


(** C2.  For every operation kind, a call with a valid fridge and valid
    arguments returns.  When [fridgethr_submit] answers a nonzero code the
    call leaves the heap exactly as it found it (the fridge still holds the
    queue it held, with no job for the task, so no thread can enter the
    worker, and the argument block is gone), has produced the allocation and
    the release of the block and no other event (no worker entry, no
    callback), and returns a status built from that nonzero code.  The two
    outcomes are told apart by the fridge's answer alone: the call is such a
    rejection exactly when the answer is nonzero, and a handoff exactly when
    it is zero. *)
Theorem rejected_submission_frees_and_reports
    (c : up_call) (fr : ptr) (w0 : world) (f0 : fridgethr) :
  deref_as as_fridge (heap w0) fr = Some f0 ->
  valid_arguments (heap w0) c ->
  exists (st : fsal_status_t) (w1 : world) (t : loc),
    up_async fr c w0 = Some (st, w1) /\
    heap w0 !! t = None /\
    (verdict f0 <> 0%Z ->
       rejected w0 w1 st t (verdict f0) /\
       deref_as as_fridge (heap w1) fr = Some f0 /\
       heap w1 !! t = None) /\
    (verdict f0 = 0%Z -> handed_off fr c w0 w1 st t) /\
    (rejected w0 w1 st t (verdict f0) <-> verdict f0 <> 0%Z) /\
    (handed_off fr c w0 w1 st t <-> verdict f0 = 0%Z).
Proof.
  intros Hf Hvalid.
  destruct (up_async_returns c fr w0 f0 Hf Hvalid) as (st & w1 & Hrun).
  exists st, w1.
  destruct (up_async_inv _ _ _ _ _ Hrun)
    as (frl & f0' & fx & task & -> & Hfrl & Ht & Hne & Hfx & Htask & Hst & Hw1).
  set (t := fresh (dom (heap w0))) in *.
  assert (f0' = f0) as ->.
  { rewrite (deref_fridge_live _ _ _ Hfrl) in Hf. congruence. }
  exists t. split; [exact Hrun|]. split; [exact Ht|].
  assert (Hrej : verdict f0 <> 0%Z ->
    rejected w0 w1 st t (verdict f0) /\
    deref_as as_fridge (heap w1) (Ptr frl) = Some f0 /\
    heap w1 !! t = None).
  { intros Hv. rewrite decide_False in Hw1 by exact Hv. subst w1 st.
    cbn [heap]. split; [|split; [exact Hf | exact Ht]].
    repeat split; try reflexivity. exact Hv. }
  assert (Hacc : verdict f0 = 0%Z -> handed_off (Ptr frl) c w0 w1 st t).
  { intros Hv. rewrite decide_True in Hw1 by exact Hv. subst w1 st.
    exists f0. split; [exact Hf|].
    split; [cbn [heap]; apply deref_fridge_live, lookup_insert_eq|].
    split; [rewrite accepted_task by exact Hne; eauto|].
    split; [reflexivity | exact Hv]. }
  split; [exact Hrej|]. split; [exact Hacc|]. split.
  - split; [intros (Hv & _); exact Hv | intros Hv; apply Hrej, Hv].
  - split; [|exact Hacc].
    intros (f & Hf0 & Hf1 & _).
    destruct (decide (verdict f0 = 0%Z)) as [E|E]; [exact E|exfalso].
    destruct (Hrej E) as (_ & Hsame & _).
    rewrite Hf in Hf0. injection Hf0 as <-.
    rewrite Hsame in Hf1. injection Hf1 as Hq.
    exact (enqueue_neq f0 _ (eq_sym Hq)).
Qed.



(** C3.  For every operation kind that carries a key or handle and every
    key length: with a valid fridge that accepts, a valid descriptor (for
    length zero any address will do, the null address included) and valid
    fixed-size arguments, the call returns, and the
    bytes the worker hands to the operation are byte for byte the bytes the
    caller's descriptor designated when the call was made.  The descriptor
    handed over points at the trailing bytes of the task's own block, which
    is at an address that was not in use when the call was made.  This holds
    in every later world that still holds the task's block, whatever has
    happened to any other block, the caller's buffer included. *)
Theorem key_round_trip
    (c : up_call) (fr : ptr) (w0 : world) (f0 : fridgethr)
    (key : list byte) (fx : fixed_args) :
  deref_as as_fridge (heap w0) fr = Some f0 ->
  verdict f0 = 0%Z ->
  supplied_key (heap w0) c = Some key ->
  supplied_fixed (heap w0) c = Some fx ->
  exists (st : fsal_status_t) (w1 : world) (t : loc),
    up_async fr c w0 = Some (st, w1) /\
    heap w0 !! t = None /\
    deref_as as_fridge (heap w1) fr
      = Some (enqueue f0 (worker_of c, Ptr t)) /\
    forall (w2 : world) (ops : fsal_up_vector),
      heap w2 !! t = heap w1 !! t ->
      export_up_ops (heap w2) (call_export c) = Some ops ->
      exists (u : upcall) (w3 : world) (rest : list event),
        entry_point (worker_of c) (Ptr t) w2 = Some (tt, w3) /\
        trace w3 = trace w2 ++ EvUpcall (call_export c) u :: rest /\
        upcall_key u = Some key /\
        upcall_desc u = Some {| addr := KeyOf t; len := length key |}.
Proof.
  destruct w0 as [h tr]. cbn [heap trace]. intros Hf Hv Hkey Hfx.
  destruct (deref_fridge _ _ _ Hf) as (frl & -> & Hfrl).
  set (t := fresh (dom h)).
  destruct (task_of_defined h t c fx Hfx) as [task Htask].
  { rewrite Hkey. eauto. }
  assert (Ht : h !! t = None) by apply fresh_heap.
  assert (Hne : t <> frl) by (intros E; rewrite E in Ht; congruence).
  eexists _, _, t. split.
  { rewrite up_async_eq, Hf, Hfx. fold t. rewrite Htask. reflexivity. }
  rewrite decide_True by exact Hv.
  split; [exact Ht|].
  split; [cbn [heap put_heap]; apply deref_fridge_live, lookup_insert_eq|].
  cbn [put_heap].
  intros w2 ops Hkeep Hops.
  rewrite accepted_task in Hkeep by exact Hne.
  destruct (task_runs c t _ fx task w2 ops Htask Hkeep Hops)
    as (u & Hrun & _ & Hk & _ & _ & Hd & _).
  rewrite Hkey in Hk, Hd.
  exists u. eexists _, _. split; [exact Hrun|].
  split; [cbn [trace app]; reflexivity|]. split; assumption.
Qed.


Lemma task_of_key t c k fx task :
  task_of t c k fx = Some task ->
  (kind_of c <> Op_notify_device -> is_Some k) /\
  (kind_of c = Op_notify_device -> k = None).
Proof.
  destruct c, k, fx; try discriminate; intros _; cbn [kind_of];
    (split; [intros H; try congruence; eauto | intros; congruence]).
Qed.

(** C4, amended.  For every operation kind the worker calls the slot of
    that kind in the table reached through the task's export, with the
    operation-specific arguments.  For six kinds it passes the export itself
    and the key or handle the caller supplied.  For notify-device it passes
    the four fixed arguments only: neither the export nor a key. *)
Theorem worker_calls_slot_of_task_export
    (c : up_call) (fr : ptr) (w0 w1 : world) (st : fsal_status_t)
    (f0 : fridgethr) :
  deref_as as_fridge (heap w0) fr = Some f0 ->
  verdict f0 = 0%Z ->
  up_async fr c w0 = Some (st, w1) ->
  exists (t : loc) (fx : fixed_args),
    heap w0 !! t = None /\
    deref_as as_fridge (heap w1) fr
      = Some (enqueue f0 (worker_of c, Ptr t)) /\
    supplied_fixed (heap w0) c = Some fx /\
    forall (w2 : world) (ops : fsal_up_vector),
      heap w2 !! t = heap w1 !! t ->
      export_up_ops (heap w2) (call_export c) = Some ops ->
      exists (u : upcall) (w3 : world),
        entry_point (worker_of c) (Ptr t) w2 = Some (tt, w3) /\
        trace w3 =
          trace w2 ++ [EvUpcall (call_export c) u] ++
          cb_events (call_cb c) (call_cb_arg c) (upcall_status ops u) ++
          [EvFree t] /\
        slot_of u = kind_of c /\
        upcall_fixed u = effective_fixed fx /\
        (kind_of c <> Op_notify_device ->
           upcall_export u = Some (call_export c) /\
           upcall_key u = supplied_key (heap w0) c /\
           is_Some (upcall_key u)) /\
        (kind_of c = Op_notify_device ->
           upcall_export u = None /\ upcall_key u = None).
Proof.
  intros Hf Hv Hrun.
  destruct (up_async_inv _ _ _ _ _ Hrun)
    as (frl & f0' & fx & task & -> & Hfrl & Ht & Hne & Hfx & Htask & _ & ->).
  rewrite (deref_fridge_live _ _ _ Hfrl) in Hf. injection Hf as ->.
  rewrite decide_True by exact Hv.
  exists (fresh (dom (heap w0))), fx. split; [exact Ht|].
  split; [cbn [heap]; apply deref_fridge_live, lookup_insert_eq|].
  split; [exact Hfx|].
  intros w2 ops Hkeep Hops.
  rewrite accepted_task in Hkeep by exact Hne.
  destruct (task_runs c _ _ fx task w2 ops Htask Hkeep Hops)
    as (u & Hrun2 & Hslot & Hk & Hfixed & _ & _ & He).
  destruct (task_of_key _ _ _ _ _ Htask) as [Hsome Hnone].
  exists u. eexists. split; [exact Hrun2|]. split; [reflexivity|].
  split; [exact Hslot|]. split; [exact Hfixed|]. split.
  - intros Hkind. rewrite decide_False in He by exact Hkind.
    rewrite Hk. auto.
  - intros Hkind. rewrite decide_True in He by exact Hkind.
    rewrite Hk. auto.
Qed.


(** C5, amended.  For [up_async_layoutrecall]: a null recall specification
    is stored in the task as the sentinel tag [layoutrecall_not_specced], a
    present one is stored as the caller's structure, by value.  The worker
    hands the entry point a null specification when the caller's was null,
    and a specification equal to the caller's copy when the caller's was
    present with a tag other than the sentinel.  A present specification
    whose tag is the sentinel is handed over as null too. *)
Theorem layoutrecall_spec_handed_over
    (fr export handle : ptr) (layout_type : Z) (changed : bool)
    (segment cookie spec : ptr) (cb : funptr) (cb_arg : ptr)
    (w0 w1 : world) (st : fsal_status_t) (f0 : fridgethr) :
  deref_as as_fridge (heap w0) fr = Some f0 ->
  verdict f0 = 0%Z ->
  up_async fr
    (Async_layoutrecall export handle layout_type changed segment cookie spec
       cb cb_arg) w0 = Some (st, w1) ->
  exists (t : loc) (a : layoutrecall_args) (sp : option layoutrecall_spec),
    heap w0 !! t = None /\
    deref_as as_fridge (heap w1) fr
      = Some (enqueue f0 (fn_queue_layoutrecall, Ptr t)) /\
    supplied_spec (heap w0) spec = Some sp /\
    (sp = None <-> spec = NULL) /\
    heap w1 !! t = Some (OLayoutrecallArgs a) /\
    (sp = None -> how (lr_spec a) = layoutrecall_not_specced) /\
    (forall s, sp = Some s -> lr_spec a = s) /\
    forall (w2 : world) (ops : fsal_up_vector),
      heap w2 !! t = heap w1 !! t ->
      export_up_ops (heap w2) export = Some ops ->
      exists (u : upcall) (w3 : world) (rest : list event),
        entry_point fn_queue_layoutrecall (Ptr t) w2 = Some (tt, w3) /\
        trace w3 = trace w2 ++ EvUpcall export u :: rest /\
        slot_of u = Op_layoutrecall /\
        (sp = None -> upcall_spec u = None) /\
        (forall s, sp = Some s -> how s <> layoutrecall_not_specced ->
                   upcall_spec u = Some s) /\
        (forall s, sp = Some s -> how s = layoutrecall_not_specced ->
                   upcall_spec u = None).
Proof.
  intros Hf Hv Hrun.
  destruct (up_async_inv _ _ _ _ _ Hrun)
    as (frl & f0' & fx & task & -> & Hfrl & Ht & Hne & Hfx & Htask & _ & ->).
  rewrite (deref_fridge_live _ _ _ Hfrl) in Hf. injection Hf as ->.
  rewrite decide_True by exact Hv.
  set (t := fresh (dom (heap w0))) in *.
  cbn [supplied_fixed] in Hfx.
  destruct (deref_as as_segment (heap w0) segment) as [seg|]; [|discriminate].
  destruct (supplied_spec (heap w0) spec) as [sp|] eqn:Hsp; [|discriminate].
  injection Hfx as <-.
  destruct (supplied_key (heap w0) _) as [k|] eqn:Hk; [|discriminate].
  pose proof Htask as Htask'. cbn [task_of] in Htask'.
  injection Htask' as Hshape.
  eexists t, _, sp. split; [exact Ht|].
  split; [cbn [heap]; apply deref_fridge_live, lookup_insert_eq|].
  split; [reflexivity|]. split.
  { unfold supplied_spec in Hsp.
    destruct spec;
      [| destruct (deref_as as_spec _ _); [|discriminate] ..];
      injection Hsp as <-; split; intros E; (reflexivity || discriminate). }
  split. { rewrite accepted_task by exact Hne. rewrite <- Hshape. reflexivity. }
  cbn [lr_spec]. split; [intros ->; reflexivity|].
  split; [intros s ->; reflexivity|].
  intros w2 ops Hkeep Hops.
  rewrite accepted_task in Hkeep by exact Hne.
  destruct (task_runs _ _ _ _ task w2 ops Htask Hkeep Hops)
    as (u & Hrun2 & Hslot & _ & Hfixed & _).
  exists u. eexists _, _. split; [exact Hrun2|].
  split; [cbn [trace app]; reflexivity|]. split; [exact Hslot|].
  destruct u; try discriminate Hslot. cbn in Hfixed. injection Hfixed as -> -> -> ->.
  cbn [upcall_spec].
  split; [intros ->; reflexivity|]. split.
  - intros s -> Hs. cbn [effective_spec]. unfold spec_argument.
    rewrite decide_False by exact Hs. reflexivity.
  - intros s -> Hs. cbn [effective_spec]. unfold spec_argument.
    rewrite decide_True by exact Hs. reflexivity.
Qed.


Lemma effective_fixed_id fx : ~ sentinel_tagged fx -> effective_fixed fx = fx.
Proof.
  destruct fx as [| | | |lt ch seg [s|]|  |]; try reflexivity.
  cbn [sentinel_tagged effective_fixed effective_spec]. intros Hs.
  unfold spec_argument. rewrite decide_False by exact Hs. reflexivity.
Qed.

(** C6, amended.  For every operation kind the fixed-size arguments are
    copied into the task when it is packaged: the values the worker hands to
    the entry point are the values the caller's arguments had when the call
    was made, in every later world that still holds the task's block,
    whatever has happened to the caller's argument objects.  The one
    exception is a present recall specification tagged
    [layoutrecall_not_specced], which is handed over as a null
    specification. *)
Theorem fixed_arguments_copied_by_value
    (c : up_call) (fr : ptr) (w0 w1 : world) (st : fsal_status_t)
    (f0 : fridgethr) (fx : fixed_args) :
  deref_as as_fridge (heap w0) fr = Some f0 ->
  verdict f0 = 0%Z ->
  supplied_fixed (heap w0) c = Some fx ->
  up_async fr c w0 = Some (st, w1) ->
  exists t : loc,
    heap w0 !! t = None /\
    deref_as as_fridge (heap w1) fr
      = Some (enqueue f0 (worker_of c, Ptr t)) /\
    forall (w2 : world) (ops : fsal_up_vector),
      heap w2 !! t = heap w1 !! t ->
      export_up_ops (heap w2) (call_export c) = Some ops ->
      exists (u : upcall) (w3 : world) (rest : list event),
        entry_point (worker_of c) (Ptr t) w2 = Some (tt, w3) /\
        trace w3 = trace w2 ++ EvUpcall (call_export c) u :: rest /\
        upcall_fixed u = effective_fixed fx /\
        (~ sentinel_tagged fx -> upcall_fixed u = fx).
Proof.
  intros Hf Hv Hfx Hrun.
  destruct (up_async_inv _ _ _ _ _ Hrun)
    as (frl & f0' & fx' & task & -> & Hfrl & Ht & Hne & Hfx' & Htask & _ & ->).
  rewrite Hfx in Hfx'. injection Hfx' as <-.
  rewrite (deref_fridge_live _ _ _ Hfrl) in Hf. injection Hf as ->.
  rewrite decide_True by exact Hv.
  exists (fresh (dom (heap w0))). split; [exact Ht|].
  split; [cbn [heap]; apply deref_fridge_live, lookup_insert_eq|].
  intros w2 ops Hkeep Hops.
  rewrite accepted_task in Hkeep by exact Hne.
  destruct (task_runs c _ _ fx task w2 ops Htask Hkeep Hops)
    as (u & Hrun2 & _ & _ & Hfixed & _).
  exists u. eexists _, _. split; [exact Hrun2|].
  split; [cbn [trace app]; reflexivity|]. split; [exact Hfixed|].
  intros Hs. rewrite Hfixed. apply effective_fixed_id, Hs.
Qed.



(** C7.  For every [up_async_*] entry point, a call with a valid fridge and
    valid arguments returns, and the value returned is
    [fsalstat(posix2fsal_error(rc), rc)] for the code [rc] that
    [fridgethr_submit] answered.  It is the status of an accepted submission
    exactly when the fridge accepted, which is exactly when the job is
    pending in the fridge afterwards.  It cannot reflect the operation: the
    entry point itself calls no [up_ops] slot (its only events are the
    allocation and, on rejection, the release), and any other returned call,
    of any kind and on any arguments, whose fridge answers the same code
    returns the same status. *)
Theorem synchronous_status_is_submission_code
    (c : up_call) (fr : ptr) (w0 : world) (f0 : fridgethr) :
  deref_as as_fridge (heap w0) fr = Some f0 ->
  valid_arguments (heap w0) c ->
  exists (st : fsal_status_t) (w1 : world) (t : loc),
    up_async fr c w0 = Some (st, w1) /\
    st = fsalstat (posix2fsal_error (verdict f0)) (verdict f0) /\
    (st = fsalstat (posix2fsal_error 0) 0 <-> verdict f0 = 0%Z) /\
    (verdict f0 = 0%Z <->
       deref_as as_fridge (heap w1) fr
         = Some (enqueue f0 (worker_of c, Ptr t))) /\
    (trace w1 = trace w0 ++ [EvMalloc t] \/
     trace w1 = trace w0 ++ [EvMalloc t; EvFree t]) /\
    forall c' fr' w0' w1' st' f0',
      up_async fr' c' w0' = Some (st', w1') ->
      deref_as as_fridge (heap w0') fr' = Some f0' ->
      verdict f0' = verdict f0 ->
      st' = st.
Proof.
  intros Hf Hvalid.
  destruct (up_async_returns c fr w0 f0 Hf Hvalid) as (st & w1 & Hrun).
  exists st, w1.
  destruct (up_async_inv _ _ _ _ _ Hrun)
    as (frl & f0' & fx & task & -> & Hfrl & Ht & Hne & Hfx & Htask & -> & ->).
  set (t := fresh (dom (heap w0))) in *.
  assert (f0' = f0) as ->.
  { rewrite (deref_fridge_live _ _ _ Hfrl) in Hf. congruence. }
  exists t. split; [exact Hrun|].
  split; [reflexivity|]. split.
  { split.
    - intros E. apply (f_equal minor) in E. exact E.
    - intros ->. reflexivity. }
  split.
  { destruct (decide (verdict f0 = 0%Z)) as [E|E]; cbn [heap].
    - split; [intros _ | intros _; exact E].
      apply deref_fridge_live, lookup_insert_eq.
    - split; [intros E'; contradiction|].
      rewrite (deref_fridge_live _ _ _ Hfrl). intros [= E'].
      symmetry in E'. apply enqueue_neq in E'. contradiction. }
  split.
  { destruct (decide (verdict f0 = 0%Z)); [left | right]; reflexivity. }
  intros c' fr' w0' w1' st' f0' Hrun' Hf' Hv'.
  destruct (up_async_inv _ _ _ _ _ Hrun')
    as (frl' & f0'' & _ & _ & -> & Hfrl' & _ & _ & _ & _ & -> & _).
  rewrite (deref_fridge_live _ _ _ Hfrl') in Hf'. injection Hf' as ->.
  rewrite Hv'. reflexivity.
Qed.


(** ** The direct delegation-recall path *)

Lemma async_delegrecall_eq fr obj h tr :
  async_delegrecall fr obj {| heap := h; trace := tr |} =
  match deref_as as_fridge h fr with
  | Some f =>
      Some (verdict f,
            if decide (verdict f = 0%Z)
            then {| heap := put_heap fr
                              (OFridge (enqueue f (fn_queue_delegrecall, obj)))
                              h;
                    trace := tr |}
            else {| heap := h; trace := tr |})
  | None => None
  end.
Proof.
  unfold async_delegrecall. rewrite bind_submit.
  destruct (deref_as as_fridge h fr) as [f|]; [|reflexivity].
  destruct (decide (verdict f = 0%Z)); reflexivity.
Qed.

(** C8.  [async_delegrecall] packages and allocates nothing: it produces no
    event, the heap keeps its domain and changes at the fridge only, and on
    acceptance the job pending in the fridge holds the caller's pointer
    itself.  Its worker entry point, in any world, calls [delegrecall_impl]
    on the pointer it is given and does nothing more: no callback, no
    release, the heap untouched, and a final world in which the value
    [delegrecall_impl] returned does not appear. *)
Theorem direct_delegrecall_path
    (fr obj : ptr) (w0 w1 : world) (rc : Z) :
  async_delegrecall fr obj w0 = Some (rc, w1) ->
  exists (frl : loc) (f0 : fridgethr),
    fr = Ptr frl /\
    heap w0 !! frl = Some (OFridge f0) /\
    trace w1 = trace w0 /\
    dom (heap w1) = dom (heap w0) /\
    (forall l, l <> frl -> heap w1 !! l = heap w0 !! l) /\
    (rc = 0%Z ->
       heap w1 !! frl
         = Some (OFridge (enqueue f0 (fn_queue_delegrecall, obj)))) /\
    (rc <> 0%Z -> heap w1 = heap w0) /\
    forall w2 : world,
      entry_point fn_queue_delegrecall obj w2 =
        Some (tt, {| heap := heap w2;
                     trace := trace w2 ++ [EvDelegrecallImpl obj] |}).
Proof.
  destruct w0 as [h tr]. cbn [heap trace]. intros Hrun.
  rewrite async_delegrecall_eq in Hrun.
  destruct (deref_as as_fridge h fr) as [f0|] eqn:Hf; [|discriminate].
  destruct (deref_fridge _ _ _ Hf) as (frl & -> & Hfrl).
  injection Hrun as <- <-. exists frl, f0.
  split; [reflexivity|]. split; [exact Hfrl|].
  destruct (decide (verdict f0 = 0%Z)) as [E|E]; cbn [heap trace put_heap].
  - split; [reflexivity|]. split.
    { apply dom_insert_lookup_L. eauto. }
    split. { intros l Hl. apply lookup_insert_ne. congruence. }
    split. { intros _. apply lookup_insert_eq. }
    split. { intros E'. contradiction. }
    intros w2. reflexivity.
  - split; [reflexivity|]. split; [reflexivity|].
    split; [reflexivity|]. split; [intros E'; contradiction|].
    split; [reflexivity|].
    intros w2. reflexivity.
Qed.



(** C9.  For lock grant, lock avail and layout recall: a call with a valid
    fridge that accepts and valid arguments returns and queues its task, and
    the caller's [owner] or [cookie] is kept as a pointer value; nothing is
    asked of what it points at.  The worker hands the entry point that same
    pointer value, in every later world that still holds the task.  What the
    pointer refers to is not copied: had the referent held anything else
    when the call was made (the other argument blocks being as they were),
    the call would have returned the same status and built the same task
    block. *)
Theorem opaque_pointer_passed_through
    (c : up_call) (fr : ptr) (w0 : world) (f0 : fridgethr) (p : ptr) :
  call_opaque c = Some p ->
  deref_as as_fridge (heap w0) fr = Some f0 ->
  verdict f0 = 0%Z ->
  valid_arguments (heap w0) c ->
  exists (st : fsal_status_t) (w1 : world) (t : loc),
    up_async fr c w0 = Some (st, w1) /\
    heap w0 !! t = None /\
    deref_as as_fridge (heap w1) fr
      = Some (enqueue f0 (worker_of c, Ptr t)) /\
    (forall (w2 : world) (ops : fsal_up_vector),
        heap w2 !! t = heap w1 !! t ->
        export_up_ops (heap w2) (call_export c) = Some ops ->
        exists (u : upcall) (w3 : world) (rest : list event),
          entry_point (worker_of c) (Ptr t) w2 = Some (tt, w3) /\
          trace w3 = trace w2 ++ EvUpcall (call_export c) u :: rest /\
          upcall_opaque u = Some p) /\
    (forall (l : loc) (o' : obj),
        p = Ptr l ->
        is_Some (heap w0 !! l) ->
        deref_as as_fridge (<[l := o']> (heap w0)) fr = Some f0 ->
        supplied_key (<[l := o']> (heap w0)) c = supplied_key (heap w0) c ->
        supplied_fixed (<[l := o']> (heap w0)) c
          = supplied_fixed (heap w0) c ->
        exists w1' : world,
          up_async fr c {| heap := <[l := o']> (heap w0); trace := trace w0 |}
            = Some (st, w1') /\
          heap w1' !! t = heap w1 !! t).
Proof.
  intros Hp Hf Hv Hvalid.
  destruct (up_async_returns c fr w0 f0 Hf Hvalid) as (st & w1 & Hrun).
  exists st, w1.
  destruct (up_async_inv _ _ _ _ _ Hrun)
    as (frl & f0' & fx & task & -> & Hfrl & Ht & Hne & Hfx & Htask & -> & ->).
  rewrite (deref_fridge_live _ _ _ Hfrl) in Hf. injection Hf as ->.
  set (t := fresh (dom (heap w0))) in *.
  exists t. split; [exact Hrun|]. clear Hrun.
  rewrite decide_True by exact Hv.
  split; [exact Ht|].
  split; [cbn [heap]; apply deref_fridge_live, lookup_insert_eq|]. split.
  - intros w2 ops Hkeep Hops.
    rewrite accepted_task in Hkeep by exact Hne.
    destruct (task_runs c _ _ fx task w2 ops Htask Hkeep Hops)
      as (u & Hrun2 & _ & _ & _ & Ho & _).
    exists u. eexists _, _. split; [exact Hrun2|].
    split; [cbn [trace app]; reflexivity|]. rewrite Ho. exact Hp.
  - intros l o' -> Hl Hf' Hkey' Hfx'.
    eexists. split.
    + rewrite up_async_eq, Hf', Hfx', Hfx, Hkey'.
      rewrite (dom_insert_lookup_L _ _ _ Hl). fold t. rewrite Htask.
      rewrite decide_True by exact Hv. reflexivity.
    + cbn [heap put_heap].
      rewrite !(lookup_insert_ne _ frl t) by congruence.
      rewrite !lookup_insert_eq. reflexivity.
Qed.


(** ** Further properties of the entry points and workers *)

(** X1.  A call that returns, accepted or rejected, has written to no block
    that existed when it was made, the fridge apart: the caller's buffer,
    descriptor and argument structures are read and left as they were. *)
Theorem up_async_leaves_other_blocks
    (c : up_call) (fr : ptr) (w0 w1 : world) (st : fsal_status_t) :
  up_async fr c w0 = Some (st, w1) ->
  forall l : loc,
    is_Some (heap w0 !! l) -> Ptr l <> fr -> heap w1 !! l = heap w0 !! l.
Proof.
  intros Hrun l [o Hl] Hfr.
  destruct (up_async_inv _ _ _ _ _ Hrun)
    as (frl & f0 & fx & task & -> & Hfrl & Ht & Hne & _ & _ & _ & ->).
  destruct (decide (verdict f0 = 0%Z)); cbn [heap]; [|reflexivity].
  rewrite lookup_insert_ne by congruence.
  apply lookup_insert_ne. intros E. rewrite E in Ht. congruence.
Qed.


(** What two accepted calls in a row leave. *)
Lemma two_accepted c1 c2 fr w0 w1 w2 st1 st2 f0 f1 :
  deref_as as_fridge (heap w0) fr = Some f0 ->
  verdict f0 = 0%Z ->
  up_async fr c1 w0 = Some (st1, w1) ->
  deref_as as_fridge (heap w1) fr = Some f1 ->
  verdict f1 = 0%Z ->
  up_async fr c2 w1 = Some (st2, w2) ->
  exists frl t1 t2 task1 task2 k1 fx1 k2 fx2,
    fr = Ptr frl /\
    t1 <> t2 /\ t1 <> frl /\ t2 <> frl /\
    heap w0 !! frl = Some (OFridge f0) /\
    heap w0 !! t1 = None /\ heap w0 !! t2 = None /\
    task_of t1 c1 k1 fx1 = Some task1 /\
    task_of t2 c2 k2 fx2 = Some task2 /\
    f1 = enqueue f0 (worker_of c1, Ptr t1) /\
    heap w1 = <[frl := OFridge f1]> (<[t1 := task1]> (heap w0)) /\
    heap w2 = <[frl := OFridge (enqueue f1 (worker_of c2, Ptr t2))]>
                (<[t2 := task2]> (heap w1)) /\
    trace w2 = trace w0 ++ [EvMalloc t1; EvMalloc t2].
Proof.
  intros Hf0 Hv0 Hrun1 Hf1 Hv1 Hrun2.
  destruct (up_async_inv _ _ _ _ _ Hrun1)
    as (frl & f0' & fx1 & task1 & -> & Hfrl & Ht1 & Hne1 & _ & Htask1 & _
        & ->).
  rewrite (deref_fridge_live _ _ _ Hfrl) in Hf0. injection Hf0 as ->.
  rewrite decide_True in * by exact Hv0.
  destruct (up_async_inv _ _ _ _ _ Hrun2)
    as (frl' & f1' & fx2 & task2 & [= <-] & Hfrl2 & Ht2 & Hne2 & _ & Htask2
        & _ & ->).
  cbn [heap trace] in *.
  rewrite (deref_fridge_live _ _ _ Hfrl2) in Hf1. injection Hf1 as ->.
  rewrite decide_True by exact Hv1. cbn [heap trace].
  set (t1 := fresh (dom (heap w0))) in *.
  set (h1 := <[frl := OFridge (enqueue f0 (worker_of c1, Ptr t1))]>
               (<[t1 := task1]> (heap w0))) in *.
  set (t2 := fresh (dom h1)) in *.
  assert (Hlive1 : h1 !! t1 = Some task1).
  { unfold h1. rewrite lookup_insert_ne by congruence.
    apply lookup_insert_eq. }
  assert (Hne12 : t1 <> t2) by (intros E; rewrite E in Hlive1; congruence).
  assert (Hf1eq : f1 = enqueue f0 (worker_of c1, Ptr t1)).
  { unfold h1 in Hfrl2. rewrite lookup_insert_eq in Hfrl2. congruence. }
  assert (Ht20 : heap w0 !! t2 = None).
  { unfold h1 in Ht2. rewrite lookup_insert_ne in Ht2 by congruence.
    rewrite lookup_insert_ne in Ht2 by exact Hne12. exact Ht2. }
  exists frl, t1, t2, task1, task2. eexists _, fx1, _, fx2.
  repeat split; try eassumption.
  - unfold h1. rewrite Hf1eq. reflexivity.
  - rewrite <- app_assoc. reflexivity.
Qed.

(** X4.  Two accepted calls in a row, of any kinds (the same call twice
    included), make two separate tasks: two different blocks, both live, the
    first untouched by the second call, and two jobs pending in the fridge in
    the order of submission. *)
Theorem two_submissions_two_tasks
    (c1 c2 : up_call) (fr : ptr) (w0 w1 w2 : world)
    (st1 st2 : fsal_status_t) (f0 f1 : fridgethr) :
  deref_as as_fridge (heap w0) fr = Some f0 ->
  verdict f0 = 0%Z ->
  up_async fr c1 w0 = Some (st1, w1) ->
  deref_as as_fridge (heap w1) fr = Some f1 ->
  verdict f1 = 0%Z ->
  up_async fr c2 w1 = Some (st2, w2) ->
  exists t1 t2 : loc,
    t1 <> t2 /\
    heap w0 !! t1 = None /\ heap w0 !! t2 = None /\
    is_Some (heap w2 !! t1) /\ is_Some (heap w2 !! t2) /\
    heap w2 !! t1 = heap w1 !! t1 /\
    deref_as as_fridge (heap w2) fr
      = Some (enqueue (enqueue f0 (worker_of c1, Ptr t1))
                (worker_of c2, Ptr t2)).
Proof.
  intros Hf0 Hv0 Hrun1 Hf1 Hv1 Hrun2.
  destruct (two_accepted _ _ _ _ _ _ _ _ _ _ Hf0 Hv0 Hrun1 Hf1 Hv1 Hrun2)
    as (frl & t1 & t2 & task1 & task2 & k1 & fx1 & k2 & fx2 & -> & H12 & H1f
        & H2f & Hfrl & Ht1 & Ht2 & Htask1 & Htask2 & -> & Hw1 & Hw2 & _).
  exists t1, t2. split; [exact H12|]. split; [exact Ht1|].
  split; [exact Ht2|].
  assert (Hl1 : heap w1 !! t1 = Some task1).
  { rewrite Hw1. rewrite lookup_insert_ne by congruence.
    apply lookup_insert_eq. }
  assert (Hl21 : heap w2 !! t1 = heap w1 !! t1).
  { rewrite Hw2. rewrite lookup_insert_ne by congruence.
    apply lookup_insert_ne. congruence. }
  split; [rewrite Hl21, Hl1; eauto|]. split.
  { rewrite Hw2. rewrite lookup_insert_ne by congruence.
    rewrite lookup_insert_eq. eauto. }
  split; [exact Hl21|].
  rewrite Hw2. apply deref_fridge_live, lookup_insert_eq.
Qed.



Lemma deref_as_none {A} (proj : obj -> option A) h p :
  deref h p = None -> deref_as proj h p = None.
Proof. unfold deref_as. intros ->. reflexivity. Qed.

(** X6.  The recall specification is the one argument tested for null
    before it is read.  A null descriptor pointer or a null pointer to a
    by-value structure (attribute set, lock parameters, segment, device id)
    is read through unchecked, so such a call has no result.  A layout
    recall with a null recall specification and otherwise valid arguments
    returns; when the fridge accepts it, the worker hands the operation a
    null specification. *)
Theorem recall_spec_is_the_argument_tested_for_null :
  (forall (c : up_call) (fr : ptr) (w : world),
      NULL ∈ dereferenced c -> up_async fr c w = None) /\
  (forall (e d seg ck : ptr) (lt : Z) (ch : bool) (cb : funptr) (cba : ptr)
          (fr : ptr) (w0 : world) (f0 : fridgethr),
      let c := Async_layoutrecall e d lt ch seg ck NULL cb cba in
      deref_as as_fridge (heap w0) fr = Some f0 ->
      is_Some (deref_as as_segment (heap w0) seg) ->
      is_Some (supplied_key (heap w0) c) ->
      exists (st : fsal_status_t) (w1 : world) (t : loc),
        up_async fr c w0 = Some (st, w1) /\
        heap w0 !! t = None /\
        (verdict f0 = 0%Z ->
         forall (w2 : world) (ops : fsal_up_vector),
           heap w2 !! t = heap w1 !! t ->
           export_up_ops (heap w2) e = Some ops ->
           exists (u : upcall) (w3 : world) (rest : list event),
             entry_point (worker_of c) (Ptr t) w2 = Some (tt, w3) /\
             trace w3 = trace w2 ++ EvUpcall e u :: rest /\
             upcall_spec u = None)).
Proof.
  split.
  - intros c fr [h tr] Hin.
    assert (Hp : deref h NULL = None) by reflexivity.
    rewrite up_async_eq.
    destruct (deref_as as_fridge h fr) as [f|]; [|reflexivity].
    destruct c; cbn [dereferenced] in Hin;
      repeat (apply elem_of_cons in Hin as [<-|Hin]);
      try (apply elem_of_nil in Hin; destruct Hin);
      cbn [supplied_fixed supplied_key call_desc];
      rewrite ?(deref_as_none _ _ _ Hp);
      repeat case_match; try reflexivity; try discriminate;
      simplify_eq; cbn [task_of] in *; discriminate.
  - intros e d seg ck lt ch cb cba fr w0 f0 c Hf [sg Hseg] Hkey.
    assert (Hfx : supplied_fixed (heap w0) c
                  = Some (Fixed_layoutrecall lt ch sg None)).
    { cbn [c supplied_fixed supplied_spec]. rewrite Hseg. reflexivity. }
    assert (Hvalid : valid_arguments (heap w0) c).
    { split; [rewrite Hfx; eauto | intros _; exact Hkey]. }
    destruct (up_async_returns c fr w0 f0 Hf Hvalid) as (st & w1 & Hrun).
    exists st, w1.
    destruct (up_async_inv _ _ _ _ _ Hrun)
      as (frl & f0' & fx & task & -> & Hfrl & Ht & Hne & Hfx' & Htask & ->
          & ->).
    rewrite (deref_fridge_live _ _ _ Hfrl) in Hf. injection Hf as ->.
    rewrite Hfx in Hfx'. injection Hfx' as <-.
    exists (fresh (dom (heap w0))). split; [exact Hrun|]. split; [exact Ht|].
    intros Hv w2 ops Hkeep Hops.
    rewrite decide_True in Hkeep by exact Hv.
    rewrite accepted_task in Hkeep by exact Hne.
    destruct (task_runs c _ _ _ task w2 ops Htask Hkeep Hops)
      as (u & Hrun2 & _ & _ & Hfixed & _).
    exists u. eexists _, _. split; [exact Hrun2|].
    split; [cbn [trace app]; reflexivity|].
    destruct u; cbn in Hfixed; try discriminate.
    injection Hfixed as _ _ _ ->. reflexivity.
Qed.

(** X7.  Only the first [len] bytes of the caller's buffer travel.  When the
    descriptor announces no more bytes than the buffer holds, a call with a
    valid fridge that accepts and valid fixed-size arguments returns, the
    task it queues holds exactly the first [len] bytes, and the worker hands
    the operation those bytes under a descriptor of length [len], however
    long the buffer is. *)
Theorem key_is_first_len_bytes
    (c : up_call) (fr : ptr) (w0 : world) (dl bl : loc) (n : nat)
    (bs : list byte) (f0 : fridgethr) (fx : fixed_args) :
  call_desc c = Some (Ptr dl) ->
  heap w0 !! dl = Some (OBuffdesc {| addr := Ptr bl; len := n |}) ->
  heap w0 !! bl = Some (OBytes bs) ->
  n <= length bs ->
  deref_as as_fridge (heap w0) fr = Some f0 ->
  verdict f0 = 0%Z ->
  supplied_fixed (heap w0) c = Some fx ->
  exists (st : fsal_status_t) (w1 : world) (t : loc) (task : obj),
    up_async fr c w0 = Some (st, w1) /\
    deref_as as_fridge (heap w1) fr
      = Some (enqueue f0 (worker_of c, Ptr t)) /\
    heap w1 !! t = Some task /\
    trailing task = Some (take n bs) /\
    forall (w2 : world) (ops : fsal_up_vector),
      heap w2 !! t = heap w1 !! t ->
      export_up_ops (heap w2) (call_export c) = Some ops ->
      exists (u : upcall) (w3 : world) (rest : list event),
        entry_point (worker_of c) (Ptr t) w2 = Some (tt, w3) /\
        trace w3 = trace w2 ++ EvUpcall (call_export c) u :: rest /\
        upcall_key u = Some (take n bs) /\
        upcall_desc u = Some {| addr := KeyOf t; len := n |}.
Proof.
  intros Hdesc Hdl Hbl Hle Hf Hv Hfx.
  assert (Hkey : supplied_key (heap w0) c = Some (take n bs)).
  { unfold supplied_key. rewrite Hdesc.
    rewrite (deref_as_live _ _ _ _ Hdl). cbn [as_buffdesc addr len].
    unfold key_bytes, bytes_at. rewrite Hbl.
    destruct (decide (n = 0)) as [->|_]; [reflexivity|].
    rewrite decide_True by exact Hle. reflexivity. }
  assert (Hvalid : valid_arguments (heap w0) c).
  { split; [rewrite Hfx; eauto | intros _; rewrite Hkey; eauto]. }
  destruct (up_async_returns c fr w0 f0 Hf Hvalid) as (st & w1 & Hrun).
  exists st, w1.
  destruct (up_async_inv _ _ _ _ _ Hrun)
    as (frl & f0' & fx' & task & -> & Hfrl & Ht & Hne & Hfx' & Htask & _
        & ->).
  rewrite (deref_fridge_live _ _ _ Hfrl) in Hf. injection Hf as ->.
  rewrite decide_True in Hrun |- * by exact Hv.
  rewrite Hkey in Htask.
  exists (fresh (dom (heap w0))), task.
  split; [exact Hrun|].
  split; [cbn [heap]; apply deref_fridge_live, lookup_insert_eq|].
  split; [apply accepted_task, Hne|].
  split.
  { destruct c, fx'; try discriminate Htask; injection Htask as <-;
      reflexivity. }
  intros w2 ops Hkeep Hops.
  rewrite accepted_task in Hkeep by exact Hne.
  destruct (task_runs c _ _ fx' task w2 ops Htask Hkeep Hops)
    as (u & Hrun2 & _ & Hk & _ & _ & Hd & _).
  exists u. eexists _, _. split; [exact Hrun2|].
  split; [cbn [trace app]; reflexivity|]. split; [exact Hk|].
  rewrite Hd. cbn. rewrite length_take. f_equal. f_equal. lia.
Qed.

Lemma with_export_same c e :
  worker_of (with_export e c) = worker_of c /\
  (forall h, supplied_fixed h (with_export e c) = supplied_fixed h c) /\
  (forall h, supplied_key h (with_export e c) = supplied_key h c) /\
  (forall t k fx,
      is_Some (task_of t c k fx) -> is_Some (task_of t (with_export e c) k fx)).
Proof.
  destruct c; cbn; (split; [reflexivity|]); (split; [reflexivity|]);
    (split; [reflexivity|]); intros t k fx [task H];
    destruct k, fx; try discriminate H; eauto.
Qed.

(** X8.  The export is not looked at when a call is submitted: with any
    other export pointer in its place, a null one included, the call returns
    the same status.  The export is first read by the worker, and a worker
    whose task carries an export that is not valid when it runs reads
    through an invalid pointer and has no result. *)
Theorem export_is_first_read_by_worker
    (c : up_call) (fr : ptr) (w0 w1 : world) (st : fsal_status_t)
    (f0 : fridgethr) :
  deref_as as_fridge (heap w0) fr = Some f0 ->
  verdict f0 = 0%Z ->
  up_async fr c w0 = Some (st, w1) ->
  (forall e' : ptr,
      exists w1' : world, up_async fr (with_export e' c) w0 = Some (st, w1')) /\
  exists t : loc,
    deref_as as_fridge (heap w1) fr
      = Some (enqueue f0 (worker_of c, Ptr t)) /\
    forall w2 : world,
      heap w2 !! t = heap w1 !! t ->
      export_up_ops (heap w2) (call_export c) = None ->
      entry_point (worker_of c) (Ptr t) w2 = None.
Proof.
  intros Hf Hv Hrun.
  destruct (up_async_inv _ _ _ _ _ Hrun)
    as (frl & f0' & fx & task & -> & Hfrl & Ht & Hne & Hfx & Htask & -> & ->).
  rewrite (deref_fridge_live _ _ _ Hfrl) in Hf. injection Hf as ->.
  rewrite decide_True by exact Hv. split.
  - intros e'. destruct (with_export_same c e') as (Hw & Hsf & Hsk & Hto).
    destruct (Hto _ _ _ (ex_intro _ task Htask)) as [task' Htask'].
    destruct w0 as [h tr]. cbn [heap trace] in *.
    eexists. rewrite up_async_eq, (deref_fridge_live _ _ _ Hfrl), Hsf, Hfx.
    rewrite Hsk, Htask'. reflexivity.
  - exists (fresh (dom (heap w0))).
    split; [cbn [heap]; apply deref_fridge_live, lookup_insert_eq|].
    intros w2 Hkeep Hops.
    rewrite accepted_task in Hkeep by exact Hne.
    destruct w2 as [h2 tr2]. cbn [heap] in Hkeep, Hops.
    destruct c, (supplied_key (heap w0) _) as [k|], fx;
      try discriminate Htask; injection Htask as <-;
      cbn [call_export worker_of entry_point] in *;
      unfold queue_invalidate, queue_update, queue_lock_grant,
        queue_lock_avail, queue_layoutrecall, queue_notify_device,
        up_queue_delegrecall;
      rewrite bind_load, (deref_as_live _ _ _ _ Hkeep); args_cbn;
      rewrite bind_peek; args_cbn; rewrite Hops; reflexivity.
Qed.

End Async.

(** The arguments of a sample call are valid in a sample world. *)
Ltac sample_valid :=
  split;
  [ vm_compute; eauto
  | first [ intros _; vm_compute; solve [eauto]
          | intros [x Hx]; discriminate Hx ] ].

(** ** The theorems at the sample worlds *)

Lemma accepted_task_runs_once_in_order_witness :
  exists u w3,
    up_async sample_posix2fsal_error (Ptr 1) sample_invalidate sample_w0
      = Some (fsalstat 0 0, sample_w1) /\
    fridgethr_dispatch sample_delegrecall_impl (Ptr 1) 0 sample_w1
      = Some (tt, w3) /\
    trace w3 =
      [EvMalloc 12; EvWorker fn_queue_invalidate (Ptr 12);
       EvUpcall (Ptr 2) u;
       EvCallback 9 NULL (upcall_status sample_ops u); EvFree 12] /\
    slot_of u = Op_invalidate /\
    heap w3 !! 12%positive = None.
Proof.
  assert (Hrun : up_async sample_posix2fsal_error (Ptr 1) sample_invalidate
                   sample_w0 = Some (fsalstat 0 0, sample_w1))
    by (vm_compute; reflexivity).
  destruct (accepted_task_runs_once_in_order sample_posix2fsal_error
              sample_delegrecall_impl sample_invalidate (Ptr 1) sample_w0
              sample_w1 (fsalstat 0 0) (sample_fridge 0) eq_refl eq_refl Hrun)
    as (t & Ht & Hq & Hall).
  assert (t = 12%positive) as -> by (vm_compute in Hq; congruence).
  destruct (Hall sample_w1
              (enqueue (sample_fridge 0) (fn_queue_invalidate, Ptr 12))
              0 sample_ops eq_refl eq_refl eq_refl eq_refl)
    as (u & w3 & Hd & Htr & Hs & Hh & _).
  exists u, w3. repeat split; assumption.
Defined.

Lemma rejected_submission_frees_and_reports_witness :
  Forall
    (fun c =>
       exists st w1 t,
         up_async sample_posix2fsal_error (Ptr 1) c sample_w0_busy
           = Some (st, w1) /\
         st = fsalstat 21 11 /\
         rejected sample_posix2fsal_error sample_w0_busy w1 st t 11 /\
         deref_as as_fridge (heap w1) (Ptr 1) = Some (sample_fridge 11) /\
         heap w1 !! t = None /\
         ~ handed_off (Ptr 1) c sample_w0_busy w1 st t)
    sample_calls /\
  Forall
    (fun c =>
       exists st w1 t,
         up_async sample_posix2fsal_error (Ptr 1) c sample_w0 = Some (st, w1) /\
         handed_off (Ptr 1) c sample_w0 w1 st t /\
         ~ rejected sample_posix2fsal_error sample_w0 w1 st t 0)
    sample_calls.
Proof.
  assert (Hbusy : deref_as as_fridge (heap sample_w0_busy) (Ptr 1)
                  = Some (sample_fridge 11)) by (vm_compute; reflexivity).
  assert (Hfree : deref_as as_fridge (heap sample_w0) (Ptr 1)
                  = Some (sample_fridge 0)) by (vm_compute; reflexivity).
  split.
  - unfold sample_calls. repeat (apply Forall_cons_2; [
      match goal with
      | |- exists st w1 t, up_async _ _ ?c _ = _ /\ _ =>
          assert (Hvalid : valid_arguments (heap sample_w0_busy) c)
            by sample_valid;
          destruct (rejected_submission_frees_and_reports
                      sample_posix2fsal_error c (Ptr 1) sample_w0_busy
                      (sample_fridge 11) Hbusy Hvalid)
            as (st & w1 & t & Hrun & Ht & Hrej & Hacc & Hiffr & Hiffh);
          destruct Hrej as (Hr & Hq & Hnone); [discriminate|];
          exists st, w1, t;
          split; [exact Hrun|];
          split; [exact (proj2 (proj2 (proj2 Hr)))|];
          split; [exact Hr|];
          split; [exact Hq|];
          split; [exact Hnone|];
          intros Hh; apply Hiffh in Hh; discriminate Hh
      end |]).
    apply Forall_nil_2.
  - unfold sample_calls. repeat (apply Forall_cons_2; [
      match goal with
      | |- exists st w1 t, up_async _ _ ?c _ = _ /\ _ =>
          assert (Hvalid : valid_arguments (heap sample_w0) c)
            by sample_valid;
          destruct (rejected_submission_frees_and_reports
                      sample_posix2fsal_error c (Ptr 1) sample_w0
                      (sample_fridge 0) Hfree Hvalid)
            as (st & w1 & t & Hrun & Ht & Hrej & Hacc & Hiffr & Hiffh);
          exists st, w1, t;
          split; [exact Hrun|];
          split; [exact (Hacc eq_refl)|];
          intros Hr; apply Hiffr in Hr; exact (Hr eq_refl)
      end |]).
    apply Forall_nil_2.
Defined.

Lemma key_round_trip_witness :
  Forall
    (fun c =>
       exists st w1 t u w3 rest,
         up_async sample_posix2fsal_error (Ptr 1) c sample_w0
           = Some (st, w1) /\
         entry_point sample_delegrecall_impl (worker_of c) (Ptr t)
           {| heap := delete 5%positive (delete 4%positive (heap w1));
              trace := trace w1 |}
           = Some (tt, w3) /\
         trace w3 = trace w1 ++ EvUpcall (Ptr 2) u :: rest /\
         upcall_key u = Some sample_key /\
         upcall_desc u = Some {| addr := KeyOf t; len := 16 |})
    [ sample_invalidate; sample_update; sample_lock_grant; sample_lock_avail;
      sample_layoutrecall (Ptr 10); sample_delegrecall ] /\
  exists st w1 t u w3 rest,
    supplied_key (heap sample_w0_nullkey) sample_invalidate = Some [] /\
    up_async sample_posix2fsal_error (Ptr 1) sample_invalidate
      sample_w0_nullkey = Some (st, w1) /\
    entry_point sample_delegrecall_impl fn_queue_invalidate (Ptr t) w1
      = Some (tt, w3) /\
    trace w3 = trace w1 ++ EvUpcall (Ptr 2) u :: rest /\
    upcall_key u = Some [] /\
    upcall_desc u = Some {| addr := KeyOf t; len := 0 |}.
Proof.
  assert (Hf : deref_as as_fridge (heap sample_w0) (Ptr 1)
               = Some (sample_fridge 0)) by (vm_compute; reflexivity).
  split.
  - repeat (apply Forall_cons_2; [
      match goal with
      | |- exists st w1 t u w3 rest, up_async _ _ ?c _ = _ /\ _ =>
          assert (Hkey : supplied_key (heap sample_w0) c = Some sample_key)
            by (vm_compute; reflexivity);
          assert (Hfx : is_Some (supplied_fixed (heap sample_w0) c))
            by (vm_compute; eauto);
          destruct Hfx as [fx Hfx];
          destruct (key_round_trip sample_posix2fsal_error
                      sample_delegrecall_impl c (Ptr 1) sample_w0
                      (sample_fridge 0) sample_key fx Hf eq_refl Hkey Hfx)
            as (st & w1 & t & Hrun & Ht & Hq & Hall);
          assert (Hkeep :
                    heap {| heap := delete 5%positive
                                      (delete 4%positive (heap w1));
                            trace := trace w1 |} !! t = heap w1 !! t)
            by (cbn [heap];
                rewrite !lookup_delete_ne
                  by (intros <-; vm_compute in Ht; discriminate Ht);
                reflexivity);
          assert (Hops : export_up_ops
                           (heap {| heap := delete 5%positive
                                              (delete 4%positive (heap w1));
                                    trace := trace w1 |}) (call_export c)
                         = Some sample_ops)
            by (pose proof Hrun as Hc; vm_compute in Hc;
                injection Hc as _ <-; vm_compute; reflexivity);
          destruct (Hall _ sample_ops Hkeep Hops)
            as (u & w3 & rest & H1 & H2 & H3 & H4);
          exists st, w1, t, u, w3, rest;
          split; [exact Hrun|];
          split; [exact H1|];
          split; [exact H2|];
          split; [exact H3 | exact H4]
      end |]).
    apply Forall_nil_2.
  - assert (Hf0 : deref_as as_fridge (heap sample_w0_nullkey) (Ptr 1)
                  = Some (sample_fridge 0)) by (vm_compute; reflexivity).
    assert (Hkey : supplied_key (heap sample_w0_nullkey) sample_invalidate
                   = Some []) by (vm_compute; reflexivity).
    destruct (key_round_trip sample_posix2fsal_error sample_delegrecall_impl
                sample_invalidate (Ptr 1) sample_w0_nullkey (sample_fridge 0)
                [] (Fixed_invalidate 1) Hf0 eq_refl Hkey eq_refl)
      as (st & w1 & t & Hrun & Ht & Hq & Hall).
    assert (Hops : export_up_ops (heap w1) (call_export sample_invalidate)
                   = Some sample_ops)
      by (pose proof Hrun as Hc; vm_compute in Hc; injection Hc as _ <-;
          vm_compute; reflexivity).
    destruct (Hall w1 sample_ops eq_refl Hops)
      as (u & w3 & rest & H1 & H2 & H3 & H4).
    exists st, w1, t, u, w3, rest.
    split; [exact Hkey|]. split; [exact Hrun|]. split; [exact H1|].
    split; [exact H2|]. split; [exact H3 | exact H4].
Defined.

Lemma worker_calls_slot_of_task_export_witness :
  exists u w3,
    up_async sample_posix2fsal_error (Ptr 1) sample_notify_device sample_w0
      = Some (fsalstat 0 0,
              sample_handed fn_queue_notify_device sample_notify_device_task
                sample_key sample_spec) /\
    entry_point sample_delegrecall_impl fn_queue_notify_device (Ptr 12)
      (sample_handed fn_queue_notify_device sample_notify_device_task
         sample_key sample_spec)
      = Some (tt, w3) /\
    trace w3 =
      [EvMalloc 12; EvUpcall (Ptr 2) u;
       EvCallback 9 NULL (upcall_status sample_ops u); EvFree 12] /\
    slot_of u = Op_notify_device /\
    upcall_fixed u = Fixed_notify_device 1 2 (Deviceid [3%Z; 5%Z]) true /\
    upcall_export u = None /\
    upcall_key u = None.
Proof.
  assert (Hrun : up_async sample_posix2fsal_error (Ptr 1) sample_notify_device
                   sample_w0
                 = Some (fsalstat 0 0,
                         sample_handed fn_queue_notify_device
                           sample_notify_device_task sample_key sample_spec))
    by (vm_compute; reflexivity).
  destruct (worker_calls_slot_of_task_export sample_posix2fsal_error
              sample_delegrecall_impl sample_notify_device (Ptr 1) sample_w0
              _ _ (sample_fridge 0) eq_refl eq_refl Hrun)
    as (t & fx & Ht & Hq & Hfx & Hall).
  assert (t = 12%positive) as -> by (vm_compute in Hq; congruence).
  assert (fx = Fixed_notify_device 1 2 (Deviceid [3%Z; 5%Z]) true) as ->
    by (vm_compute in Hfx; congruence).
  assert (Hops : export_up_ops
                   (heap (sample_handed fn_queue_notify_device
                            sample_notify_device_task sample_key sample_spec))
                   (call_export sample_notify_device)
                 = Some sample_ops) by (vm_compute; reflexivity).
  destruct (Hall _ sample_ops eq_refl Hops)
    as (u & w3 & H1 & H2 & H3 & H4 & _ & H5).
  destruct (H5 eq_refl) as [H6 H7].
  exists u, w3. repeat split; assumption.
Defined.

Lemma layoutrecall_spec_handed_over_witness :
  exists u w3 rest,
    up_async sample_posix2fsal_error (Ptr 1) (sample_layoutrecall NULL)
      sample_w0
      = Some (fsalstat 0 0,
              sample_handed fn_queue_layoutrecall
                (sample_layoutrecall_task
                   {| how := layoutrecall_not_specced; u := None |})
                sample_key sample_spec) /\
    entry_point sample_delegrecall_impl fn_queue_layoutrecall (Ptr 12)
      (sample_handed fn_queue_layoutrecall
         (sample_layoutrecall_task
            {| how := layoutrecall_not_specced; u := None |})
         sample_key sample_spec)
      = Some (tt, w3) /\
    trace w3 = [EvMalloc 12] ++ EvUpcall (Ptr 2) u :: rest /\
    slot_of u = Op_layoutrecall /\
    upcall_spec u = None.
Proof.
  set (w1 := sample_handed fn_queue_layoutrecall
               (sample_layoutrecall_task
                  {| how := layoutrecall_not_specced; u := None |})
               sample_key sample_spec).
  assert (Hrun : up_async sample_posix2fsal_error (Ptr 1)
                   (sample_layoutrecall NULL) sample_w0
                 = Some (fsalstat 0 0, w1)) by (vm_compute; reflexivity).
  destruct (layoutrecall_spec_handed_over sample_posix2fsal_error
              sample_delegrecall_impl (Ptr 1) (Ptr 2) (Ptr 4) 1 true (Ptr 8)
              (Ptr 11) NULL (Some 9%positive) NULL sample_w0 w1 _
              (sample_fridge 0) eq_refl eq_refl Hrun)
    as (t & a & sp & Ht & Hq & Hsp & _ & Ha & _ & _ & Hall).
  assert (t = 12%positive) as -> by (vm_compute in Hq; congruence).
  assert (sp = None) as -> by (vm_compute in Hsp; congruence).
  assert (Hops : export_up_ops (heap w1) (Ptr 2) = Some sample_ops)
    by (vm_compute; reflexivity).
  destruct (Hall w1 sample_ops eq_refl Hops)
    as (u & w3 & rest & H1 & H2 & H3 & H4 & _).
  exists u, w3, rest. repeat split; try assumption. exact (H4 eq_refl).
Defined.

Lemma fixed_arguments_copied_by_value_witness :
  exists u w3 rest,
    up_async sample_posix2fsal_error (Ptr 1) sample_update sample_w0
      = Some (fsalstat 0 0,
              sample_handed fn_queue_update sample_update_task sample_key
                sample_spec) /\
    entry_point sample_delegrecall_impl fn_queue_update (Ptr 12)
      {| heap := <[6%positive := OAttrlist (Attrlist [])]>
                   (heap (sample_handed fn_queue_update sample_update_task
                            sample_key sample_spec));
         trace := [EvMalloc 12] |}
      = Some (tt, w3) /\
    trace w3 = [EvMalloc 12] ++ EvUpcall (Ptr 2) u :: rest /\
    upcall_fixed u = Fixed_update (Attrlist [7%Z; 8%Z]) 1.
Proof.
  set (w1 := sample_handed fn_queue_update sample_update_task sample_key
               sample_spec).
  assert (Hrun : up_async sample_posix2fsal_error (Ptr 1) sample_update
                   sample_w0 = Some (fsalstat 0 0, w1))
    by (vm_compute; reflexivity).
  destruct (fixed_arguments_copied_by_value sample_posix2fsal_error
              sample_delegrecall_impl sample_update (Ptr 1) sample_w0 w1 _
              (sample_fridge 0) (Fixed_update (Attrlist [7%Z; 8%Z]) 1)
              eq_refl eq_refl eq_refl Hrun)
    as (t & Ht & Hq & Hall).
  assert (t = 12%positive) as -> by (vm_compute in Hq; congruence).
  set (w2 := {| heap := <[6%positive := OAttrlist (Attrlist [])]> (heap w1);
                trace := [EvMalloc 12] |}).
  assert (Hkeep : heap w2 !! 12%positive = heap w1 !! 12%positive)
    by (vm_compute; reflexivity).
  assert (Hops : export_up_ops (heap w2) (call_export sample_update)
                 = Some sample_ops) by (vm_compute; reflexivity).
  destruct (Hall w2 sample_ops Hkeep Hops)
    as (u & w3 & rest & H1 & H2 & _ & H4).
  exists u, w3, rest. repeat split; try assumption.
  apply H4. intros [].
Defined.

Lemma synchronous_status_is_submission_code_witness :
  Forall
    (fun c =>
       exists w1 t,
         up_async sample_posix2fsal_error (Ptr 1) c sample_w0_busy
           = Some (fsalstat 21 11, w1) /\
         fsalstat 21 11 <> fsalstat (sample_posix2fsal_error 0) 0 /\
         deref_as as_fridge (heap w1) (Ptr 1)
           <> Some (enqueue (sample_fridge 11) (worker_of c, Ptr t)) /\
         forall c' w0' w1' st',
           up_async sample_posix2fsal_error (Ptr 1) c' w0' = Some (st', w1') ->
           deref_as as_fridge (heap w0') (Ptr 1) = Some (sample_fridge 11) ->
           st' = fsalstat 21 11)
    sample_calls /\
  Forall
    (fun c =>
       exists w1 t,
         up_async sample_posix2fsal_error (Ptr 1) c sample_w0
           = Some (fsalstat 0 0, w1) /\
         deref_as as_fridge (heap w1) (Ptr 1)
           = Some (enqueue (sample_fridge 0) (worker_of c, Ptr t)) /\
         trace w1 = [EvMalloc t])
    sample_calls.
Proof.
  assert (Hbusy : deref_as as_fridge (heap sample_w0_busy) (Ptr 1)
                  = Some (sample_fridge 11)) by (vm_compute; reflexivity).
  assert (Hfree : deref_as as_fridge (heap sample_w0) (Ptr 1)
                  = Some (sample_fridge 0)) by (vm_compute; reflexivity).
  split.
  - unfold sample_calls. repeat (apply Forall_cons_2; [
      match goal with
      | |- exists w1 t, up_async _ _ ?c _ = _ /\ _ =>
          assert (Hvalid : valid_arguments (heap sample_w0_busy) c)
            by sample_valid;
          destruct (synchronous_status_is_submission_code
                      sample_posix2fsal_error c (Ptr 1) sample_w0_busy
                      (sample_fridge 11) Hbusy Hvalid)
            as (st & w1 & t & Hrun & -> & Hok & Hq & _ & Hsame);
          exists w1, t;
          split; [exact Hrun|];
          split; [intros E; apply Hok in E; discriminate E|];
          split; [intros E; apply Hq in E; discriminate E|];
          intros c' w0' w1' st' Hrun' Hf';
          exact (Hsame c' (Ptr 1) w0' w1' st' (sample_fridge 11) Hrun' Hf'
                   eq_refl)
      end |]).
    apply Forall_nil_2.
  - unfold sample_calls. repeat (apply Forall_cons_2; [
      match goal with
      | |- exists w1 t, up_async _ _ ?c _ = _ /\ _ =>
          assert (Hvalid : valid_arguments (heap sample_w0) c)
            by sample_valid;
          destruct (synchronous_status_is_submission_code
                      sample_posix2fsal_error c (Ptr 1) sample_w0
                      (sample_fridge 0) Hfree Hvalid)
            as (st & w1 & t & Hrun & -> & _ & Hq & Htr & _);
          exists w1, t;
          split; [exact Hrun|];
          split; [exact (proj1 Hq eq_refl)|];
          destruct Htr as [Htr|Htr]; [exact Htr|exfalso];
          assert (Hq' := proj1 Hq eq_refl);
          vm_compute in Hrun; injection Hrun as <-;
          vm_compute in Htr; discriminate Htr
      end |]).
    apply Forall_nil_2.
Defined.

Lemma direct_delegrecall_path_witness :
  async_delegrecall (Ptr 1) (Ptr 11) sample_w0
    = Some (0%Z,
            {| heap := <[1%positive := OFridge (enqueue (sample_fridge 0)
                                           (fn_queue_delegrecall, Ptr 11))]>
                         (heap sample_w0);
               trace := [] |}) /\
  entry_point sample_delegrecall_impl fn_queue_delegrecall (Ptr 11)
    {| heap := <[1%positive := OFridge (enqueue (sample_fridge 0)
                                   (fn_queue_delegrecall, Ptr 11))]>
                 (heap sample_w0);
       trace := [] |}
    = Some (tt,
            {| heap := <[1%positive := OFridge (enqueue (sample_fridge 0)
                                           (fn_queue_delegrecall, Ptr 11))]>
                         (heap sample_w0);
               trace := [EvDelegrecallImpl (Ptr 11)] |}).
Proof.
  assert (Hrun : async_delegrecall (Ptr 1) (Ptr 11) sample_w0
                 = Some (0%Z,
                         {| heap := <[1%positive := OFridge
                                        (enqueue (sample_fridge 0)
                                           (fn_queue_delegrecall, Ptr 11))]>
                                      (heap sample_w0);
                            trace := [] |}))
    by (vm_compute; reflexivity).
  destruct (direct_delegrecall_path sample_delegrecall_impl (Ptr 1) (Ptr 11)
              sample_w0 _ _ Hrun)
    as (frl & f0 & Hfr & Hf & _ & _ & _ & _ & _ & Hall).
  split; [exact Hrun|].
  exact (Hall {| heap := <[1%positive := OFridge
                            (enqueue (sample_fridge 0)
                               (fn_queue_delegrecall, Ptr 11))]>
                          (heap sample_w0);
                 trace := [] |}).
Defined.

Lemma opaque_pointer_passed_through_witness :
  Forall
    (fun c =>
       exists w1 t u w3 rest,
         up_async sample_posix2fsal_error (Ptr 1) c sample_w0
           = Some (fsalstat 0 0, w1) /\
         deref_as as_fridge (heap w1) (Ptr 1)
           = Some (enqueue (sample_fridge 0) (worker_of c, Ptr t)) /\
         entry_point sample_delegrecall_impl (worker_of c) (Ptr t)
           {| heap := delete 11%positive (heap w1); trace := trace w1 |}
           = Some (tt, w3) /\
         trace w3 = trace w1 ++ EvUpcall (Ptr 2) u :: rest /\
         upcall_opaque u = Some (Ptr 11) /\
         exists w1',
           up_async sample_posix2fsal_error (Ptr 1) c
             {| heap := <[11%positive := OBytes []]> (heap sample_w0);
                trace := trace sample_w0 |}
             = Some (fsalstat 0 0, w1') /\
           heap w1' !! t = heap w1 !! t)
    sample_opaque_calls.
Proof.
  assert (Hf : deref_as as_fridge (heap sample_w0) (Ptr 1)
               = Some (sample_fridge 0)) by (vm_compute; reflexivity).
  assert (Hl : is_Some (heap sample_w0 !! 11%positive))
    by (vm_compute; eauto).
  assert (Hf' : deref_as as_fridge
                  (<[11%positive := OBytes []]> (heap sample_w0)) (Ptr 1)
                = Some (sample_fridge 0)) by (vm_compute; reflexivity).
  unfold sample_opaque_calls. repeat (apply Forall_cons_2; [
    match goal with
    | |- exists w1 t u w3 rest, up_async _ _ ?c _ = _ /\ _ =>
        assert (Hvalid : valid_arguments (heap sample_w0) c) by sample_valid;
        destruct (opaque_pointer_passed_through sample_posix2fsal_error
                    sample_delegrecall_impl c (Ptr 1) sample_w0
                    (sample_fridge 0) (Ptr 11) eq_refl Hf eq_refl Hvalid)
          as (st & w1 & t & Hrun & Ht & Hq & Hall & Hsame);
        assert (Hst : st = fsalstat 0 0)
          by (pose proof Hrun as Hc; vm_compute in Hc;
              injection Hc as Hc _; symmetry; exact Hc);
        subst st;
        assert (Hne : 11%positive <> t)
          by (intros <-; vm_compute in Ht; discriminate Ht);
        assert (Hkeep : heap {| heap := delete 11%positive (heap w1);
                                trace := trace w1 |} !! t = heap w1 !! t)
          by (cbn [heap]; apply lookup_delete_ne, Hne);
        assert (Hops : export_up_ops
                         (heap {| heap := delete 11%positive (heap w1);
                                  trace := trace w1 |}) (call_export c)
                       = Some sample_ops)
          by (vm_compute in Hrun; injection Hrun as <-;
              vm_compute; reflexivity);
        destruct (Hall _ sample_ops Hkeep Hops)
          as (u & w3 & rest & H1 & H2 & H3);
        assert (Hk' : supplied_key
                        (<[11%positive := OBytes []]> (heap sample_w0)) c
                      = supplied_key (heap sample_w0) c)
          by (vm_compute; reflexivity);
        assert (Hx' : supplied_fixed
                        (<[11%positive := OBytes []]> (heap sample_w0)) c
                      = supplied_fixed (heap sample_w0) c)
          by (vm_compute; reflexivity);
        destruct (Hsame 11%positive (OBytes []) eq_refl Hl Hf' Hk' Hx')
          as (w1' & Hrun' & Ht');
        exists w1, t, u, w3, rest;
        split; [exact Hrun|];
        split; [exact Hq|];
        split; [exact H1|];
        split; [exact H2|];
        split; [exact H3|];
        exists w1'; split; [exact Hrun' | exact Ht']
    end |]).
  apply Forall_nil_2.
Defined.


(** ** Where three sentences fail as they are written *)

(** C4 as written fails for notify-device: the accepted sample call
    [up_async_notify_device(fr, export, 1, 2, devid, true, cb, NULL)] makes
    the worker call [notify_device(1, 2, devid, true)], which carries neither
    the export nor a key. *)
Lemma every_kind_passes_export_and_key_counterexample :
  up_async sample_posix2fsal_error (Ptr 1) sample_notify_device sample_w0
    = Some (fsalstat 0 0,
            sample_handed fn_queue_notify_device sample_notify_device_task
              sample_key sample_spec) /\
  entry_point sample_delegrecall_impl fn_queue_notify_device (Ptr 12)
    (sample_handed fn_queue_notify_device sample_notify_device_task
       sample_key sample_spec)
    = Some (tt,
            {| heap := delete 12%positive
                         (heap (sample_handed fn_queue_notify_device
                                  sample_notify_device_task sample_key
                                  sample_spec));
               trace := [EvMalloc 12;
                         EvUpcall (Ptr 2)
                           (Call_notify_device 1 2 (Deviceid [3%Z; 5%Z]) true);
                         EvCallback 9 NULL (State 1);
                         EvFree 12] |}) /\
  upcall_export (Call_notify_device 1 2 (Deviceid [3%Z; 5%Z]) true) = None /\
  upcall_key (Call_notify_device 1 2 (Deviceid [3%Z; 5%Z]) true) = None /\
  ~ every_kind_passes_export_and_key sample_posix2fsal_error
      sample_delegrecall_impl.
Proof.
  set (w1 := sample_handed fn_queue_notify_device sample_notify_device_task
               sample_key sample_spec).
  set (u := Call_notify_device 1 2 (Deviceid [3%Z; 5%Z]) true).
  set (w3 := {| heap := delete 12%positive (heap w1);
                trace := [EvMalloc 12; EvUpcall (Ptr 2) u;
                          EvCallback 9 NULL (State 1); EvFree 12] |}).
  assert (Hrun : up_async sample_posix2fsal_error (Ptr 1) sample_notify_device
                   sample_w0 = Some (fsalstat 0 0, w1))
    by (vm_compute; reflexivity).
  assert (Hwork : entry_point sample_delegrecall_impl
                    (worker_of sample_notify_device) (Ptr 12) w1
                  = Some (tt, w3)) by (vm_compute; reflexivity).
  split; [exact Hrun|]. split; [exact Hwork|].
  split; [reflexivity|]. split; [reflexivity|].
  intros H.
  destruct (H sample_notify_device (Ptr 1) sample_w0 w1 (fsalstat 0 0)
              12%positive u w3 [EvCallback 9 NULL (State 1); EvFree 12]
              Hrun Hwork eq_refl) as [He _].
  discriminate He.
Qed.

(** C5 as written fails for a present specification that carries the
    sentinel tag: the accepted sample call passes a pointer to
    [{how = layoutrecall_not_specced, u = 77}], and the worker hands the
    entry point a null specification. *)
Lemma present_spec_is_handed_over_counterexample :
  supplied_spec (heap sample_w0_sentinel) (Ptr 10) = Some (Some sentinel_spec) /\
  up_async sample_posix2fsal_error (Ptr 1) (sample_layoutrecall (Ptr 10))
    sample_w0_sentinel
    = Some (fsalstat 0 0,
            sample_handed fn_queue_layoutrecall
              (sample_layoutrecall_task sentinel_spec) sample_key
              sentinel_spec) /\
  entry_point sample_delegrecall_impl fn_queue_layoutrecall (Ptr 12)
    (sample_handed fn_queue_layoutrecall
       (sample_layoutrecall_task sentinel_spec) sample_key sentinel_spec)
    = Some (tt,
            {| heap := delete 12%positive
                         (heap (sample_handed fn_queue_layoutrecall
                                  (sample_layoutrecall_task sentinel_spec)
                                  sample_key sentinel_spec));
               trace := [EvMalloc 12;
                         EvUpcall (Ptr 2)
                           (Call_layoutrecall (Ptr 2)
                              {| addr := KeyOf 12; len := 16 |} sample_key
                              1 true (Segment [1%Z; 0%Z; 4096%Z]) (Ptr 11)
                              None);
                         EvCallback 9 NULL (State 0);
                         EvFree 12] |}) /\
  ~ present_spec_is_handed_over sample_posix2fsal_error
      sample_delegrecall_impl.
Proof.
  set (w1 := sample_handed fn_queue_layoutrecall
               (sample_layoutrecall_task sentinel_spec) sample_key
               sentinel_spec).
  set (u := Call_layoutrecall (Ptr 2) {| addr := KeyOf 12; len := 16 |}
              sample_key 1 true (Segment [1%Z; 0%Z; 4096%Z]) (Ptr 11) None).
  set (w3 := {| heap := delete 12%positive (heap w1);
                trace := [EvMalloc 12; EvUpcall (Ptr 2) u;
                          EvCallback 9 NULL (State 0); EvFree 12] |}).
  assert (Hsp : supplied_spec (heap sample_w0_sentinel) (Ptr 10)
                = Some (Some sentinel_spec)) by (vm_compute; reflexivity).
  assert (Hrun : up_async sample_posix2fsal_error (Ptr 1)
                   (sample_layoutrecall (Ptr 10)) sample_w0_sentinel
                 = Some (fsalstat 0 0, w1)) by (vm_compute; reflexivity).
  assert (Hwork : entry_point sample_delegrecall_impl fn_queue_layoutrecall
                    (Ptr 12) w1 = Some (tt, w3))
    by (vm_compute; reflexivity).
  split; [exact Hsp|]. split; [exact Hrun|]. split; [exact Hwork|].
  intros H.
  pose proof (H (Ptr 1) (Ptr 2) (Ptr 4) 1%Z true (Ptr 8) (Ptr 11) (Ptr 10)
                (Some 9%positive) NULL sample_w0_sentinel w1 (fsalstat 0 0)
                12%positive sentinel_spec u w3
                [EvCallback 9 NULL (State 0); EvFree 12]
                Hsp Hrun Hwork eq_refl) as He.
  discriminate He.
Qed.

(** C6 as written fails on the same call: the caller supplied a present
    recall specification, and the value handed to the entry point is a null
    specification. *)
Lemma fixed_arguments_are_handed_over_unchanged_counterexample :
  supplied_fixed (heap sample_w0_sentinel) (sample_layoutrecall (Ptr 10))
    = Some (Fixed_layoutrecall 1 true (Segment [1%Z; 0%Z; 4096%Z])
              (Some sentinel_spec)) /\
  (exists w1 w3 u rest,
      up_async sample_posix2fsal_error (Ptr 1) (sample_layoutrecall (Ptr 10))
        sample_w0_sentinel = Some (fsalstat 0 0, w1) /\
      entry_point sample_delegrecall_impl fn_queue_layoutrecall (Ptr 12) w1
        = Some (tt, w3) /\
      trace w3 = trace w1 ++ EvUpcall (Ptr 2) u :: rest /\
      upcall_fixed u
        = Fixed_layoutrecall 1 true (Segment [1%Z; 0%Z; 4096%Z]) None) /\
  ~ fixed_arguments_are_handed_over_unchanged sample_posix2fsal_error
      sample_delegrecall_impl.
Proof.
  set (w1 := sample_handed fn_queue_layoutrecall
               (sample_layoutrecall_task sentinel_spec) sample_key
               sentinel_spec).
  set (u := Call_layoutrecall (Ptr 2) {| addr := KeyOf 12; len := 16 |}
              sample_key 1 true (Segment [1%Z; 0%Z; 4096%Z]) (Ptr 11) None).
  set (w3 := {| heap := delete 12%positive (heap w1);
                trace := [EvMalloc 12; EvUpcall (Ptr 2) u;
                          EvCallback 9 NULL (State 0); EvFree 12] |}).
  assert (Hfx : supplied_fixed (heap sample_w0_sentinel)
                  (sample_layoutrecall (Ptr 10))
                = Some (Fixed_layoutrecall 1 true
                          (Segment [1%Z; 0%Z; 4096%Z]) (Some sentinel_spec)))
    by (vm_compute; reflexivity).
  assert (Hrun : up_async sample_posix2fsal_error (Ptr 1)
                   (sample_layoutrecall (Ptr 10)) sample_w0_sentinel
                 = Some (fsalstat 0 0, w1)) by (vm_compute; reflexivity).
  assert (Hwork : entry_point sample_delegrecall_impl fn_queue_layoutrecall
                    (Ptr 12) w1 = Some (tt, w3))
    by (vm_compute; reflexivity).
  split; [exact Hfx|]. split.
  { exists w1, w3, u, [EvCallback 9 NULL (State 0); EvFree 12].
    repeat split; assumption || reflexivity. }
  intros H.
  pose proof (H (sample_layoutrecall (Ptr 10)) (Ptr 1) sample_w0_sentinel w1
                (fsalstat 0 0) 12%positive _ u w3
                [EvCallback 9 NULL (State 0); EvFree 12]
                Hfx Hrun Hwork eq_refl) as He.
  discriminate He.
Qed.

(** ** The further properties at the sample worlds *)

Lemma up_async_leaves_other_blocks_witness :
  up_async sample_posix2fsal_error (Ptr 1) sample_invalidate sample_w0
    = Some (fsalstat 0 0, sample_w1) /\
  heap sample_w1 !! 5%positive = heap sample_w0 !! 5%positive /\
  heap sample_w1 !! 4%positive = heap sample_w0 !! 4%positive.
Proof.
  assert (Hrun : up_async sample_posix2fsal_error (Ptr 1) sample_invalidate
                   sample_w0 = Some (fsalstat 0 0, sample_w1))
    by (vm_compute; reflexivity).
  assert (H5 : is_Some (heap sample_w0 !! 5%positive))
    by (vm_compute; eauto).
  assert (H4 : is_Some (heap sample_w0 !! 4%positive))
    by (vm_compute; eauto).
  split; [exact Hrun|]. split.
  - apply (up_async_leaves_other_blocks sample_posix2fsal_error
             sample_invalidate (Ptr 1) sample_w0 sample_w1 _ Hrun
             5%positive H5).
    discriminate.
  - apply (up_async_leaves_other_blocks sample_posix2fsal_error
             sample_invalidate (Ptr 1) sample_w0 sample_w1 _ Hrun
             4%positive H4).
    discriminate.
Defined.

Lemma two_submissions_two_tasks_witness :
  exists t1 t2 : loc,
    up_async sample_posix2fsal_error (Ptr 1) sample_invalidate sample_w0
      = Some (fsalstat 0 0, sample_w1) /\
    up_async sample_posix2fsal_error (Ptr 1) sample_notify_device sample_w1
      = Some (fsalstat 0 0, sample_w2) /\
    t1 <> t2 /\
    is_Some (heap sample_w2 !! t1) /\ is_Some (heap sample_w2 !! t2) /\
    deref_as as_fridge (heap sample_w2) (Ptr 1)
      = Some (enqueue (enqueue (sample_fridge 0)
                         (fn_queue_invalidate, Ptr t1))
                (fn_queue_notify_device, Ptr t2)).
Proof.
  assert (Hrun1 : up_async sample_posix2fsal_error (Ptr 1) sample_invalidate
                    sample_w0 = Some (fsalstat 0 0, sample_w1))
    by (vm_compute; reflexivity).
  assert (Hrun2 : up_async sample_posix2fsal_error (Ptr 1)
                    sample_notify_device sample_w1
                  = Some (fsalstat 0 0, sample_w2))
    by (vm_compute; reflexivity).
  assert (Hf1 : deref_as as_fridge (heap sample_w1) (Ptr 1)
                = Some (enqueue (sample_fridge 0)
                          (fn_queue_invalidate, Ptr 12)))
    by (vm_compute; reflexivity).
  destruct (two_submissions_two_tasks sample_posix2fsal_error
              sample_invalidate sample_notify_device (Ptr 1) sample_w0
              sample_w1 sample_w2 _ _ (sample_fridge 0) _
              eq_refl eq_refl Hrun1 Hf1 eq_refl Hrun2)
    as (t1 & t2 & Hne & _ & _ & Hl1 & Hl2 & _ & Hq).
  exists t1, t2. repeat split; assumption.
Defined.

Lemma recall_spec_is_the_argument_tested_for_null_witness :
  up_async sample_posix2fsal_error (Ptr 1)
    (Async_update (Ptr 2) (Ptr 4) NULL 1 None NULL) sample_w0 = None /\
  up_async sample_posix2fsal_error (Ptr 1)
    (Async_layoutrecall (Ptr 2) (Ptr 4) 1 true NULL (Ptr 11) (Ptr 10)
       (Some 9%positive) NULL) sample_w0 = None /\
  exists st w1 t u w3 rest,
    up_async sample_posix2fsal_error (Ptr 1) (sample_layoutrecall NULL)
      sample_w0 = Some (st, w1) /\
    entry_point sample_delegrecall_impl fn_queue_layoutrecall (Ptr t) w1
      = Some (tt, w3) /\
    trace w3 = trace w1 ++ EvUpcall (Ptr 2) u :: rest /\
    upcall_spec u = None.
Proof.
  destruct (recall_spec_is_the_argument_tested_for_null
              sample_posix2fsal_error sample_delegrecall_impl)
    as [Hnull Hspec].
  split.
  { apply Hnull. apply list_elem_of_further, list_elem_of_here. }
  split.
  { apply Hnull. apply list_elem_of_further, list_elem_of_here. }
  assert (Hf : deref_as as_fridge (heap sample_w0) (Ptr 1)
               = Some (sample_fridge 0)) by (vm_compute; reflexivity).
  assert (Hseg : is_Some (deref_as as_segment (heap sample_w0) (Ptr 8)))
    by (vm_compute; eauto).
  assert (Hkey : is_Some (supplied_key (heap sample_w0)
                            (sample_layoutrecall NULL)))
    by (vm_compute; eauto).
  destruct (Hspec (Ptr 2) (Ptr 4) (Ptr 8) (Ptr 11) 1%Z true (Some 9%positive)
              NULL (Ptr 1) sample_w0 (sample_fridge 0) Hf Hseg Hkey)
    as (st & w1 & t & Hrun & Ht & Hall).
  assert (Hops : export_up_ops (heap w1) (Ptr 2) = Some sample_ops)
    by (pose proof Hrun as Hc; vm_compute in Hc; injection Hc as _ <-;
        vm_compute; reflexivity).
  destruct (Hall eq_refl w1 sample_ops eq_refl Hops)
    as (u & w3 & rest & H1 & H2 & H3).
  exists st, w1, t, u, w3, rest.
  split; [exact Hrun|]. split; [exact H1|]. split; [exact H2 | exact H3].
Defined.

Lemma key_is_first_len_bytes_witness :
  exists (st : fsal_status_t) (w1 : world) (t : loc) (task : obj)
         (u : upcall) (w3 : world) (rest : list event),
    up_async sample_posix2fsal_error (Ptr 1) sample_update sample_w0_short
      = Some (st, w1) /\
    heap w1 !! t = Some task /\
    trailing task = Some [x00; x01; x02; x03; x04; x05; x06; x07] /\
    entry_point sample_delegrecall_impl fn_queue_update (Ptr t) w1
      = Some (tt, w3) /\
    trace w3 = trace w1 ++ EvUpcall (Ptr 2) u :: rest /\
    upcall_key u = Some [x00; x01; x02; x03; x04; x05; x06; x07] /\
    upcall_desc u = Some {| addr := KeyOf t; len := 8 |}.
Proof.
  assert (Hdl : heap sample_w0_short !! 4%positive
                = Some (OBuffdesc {| addr := Ptr 5; len := 8 |}))
    by (vm_compute; reflexivity).
  assert (Hbl : heap sample_w0_short !! 5%positive
                = Some (OBytes sample_key)) by (vm_compute; reflexivity).
  assert (Hle : 8 <= length sample_key) by (vm_compute; lia).
  assert (Hf : deref_as as_fridge (heap sample_w0_short) (Ptr 1)
               = Some (sample_fridge 0)) by (vm_compute; reflexivity).
  assert (Hfx : supplied_fixed (heap sample_w0_short) sample_update
                = Some (Fixed_update (Attrlist [7%Z; 8%Z]) 1))
    by (vm_compute; reflexivity).
  destruct (key_is_first_len_bytes sample_posix2fsal_error
              sample_delegrecall_impl sample_update (Ptr 1)
              sample_w0_short 4%positive 5%positive 8 sample_key
              (sample_fridge 0) _ eq_refl Hdl Hbl Hle Hf eq_refl Hfx)
    as (st & w1 & t & task & Hrun & Hq & Hl & Htr & Hall).
  assert (Hops : export_up_ops (heap w1) (call_export sample_update)
                 = Some sample_ops)
    by (pose proof Hrun as Hc; vm_compute in Hc; injection Hc as _ <-;
        vm_compute; reflexivity).
  destruct (Hall w1 sample_ops eq_refl Hops)
    as (u & w3 & rest & H1 & H2 & H3 & H4).
  exists st, w1, t, task, u, w3, rest.
  split; [exact Hrun|]. split; [exact Hl|]. split; [exact Htr|].
  split; [exact H1|]. split; [exact H2|]. split; [exact H3 | exact H4].
Defined.

Lemma export_is_first_read_by_worker_witness :
  up_async sample_posix2fsal_error (Ptr 1) sample_invalidate_noexport
    sample_w0
    = Some (fsalstat 0 0,
            sample_handed fn_queue_invalidate sample_noexport_task sample_key
              sample_spec) /\
  entry_point sample_delegrecall_impl fn_queue_invalidate (Ptr 12)
    (sample_handed fn_queue_invalidate sample_noexport_task sample_key
       sample_spec) = None /\
  exists w1',
    up_async sample_posix2fsal_error (Ptr 1)
      (with_export (Ptr 2) sample_invalidate_noexport) sample_w0
      = Some (fsalstat 0 0, w1').
Proof.
  set (w1 := sample_handed fn_queue_invalidate sample_noexport_task
               sample_key sample_spec).
  assert (Hrun : up_async sample_posix2fsal_error (Ptr 1)
                   sample_invalidate_noexport sample_w0
                 = Some (fsalstat 0 0, w1)) by (vm_compute; reflexivity).
  destruct (export_is_first_read_by_worker sample_posix2fsal_error
              sample_delegrecall_impl sample_invalidate_noexport (Ptr 1)
              sample_w0 w1 _ (sample_fridge 0) eq_refl eq_refl Hrun)
    as (Hany & t & Hq & Hall).
  assert (t = 12%positive) as -> by (vm_compute in Hq; congruence).
  split; [exact Hrun|]. split.
  - apply (Hall w1 eq_refl). reflexivity.
  - exact (Hany (Ptr 2)).
Defined.
